(** * The Repair Intel: report formatter and process-report workflow

    A shallow embedding of [server.js]: the plain-text report generator
    [generateReportText], the three mail templates, the
    [POST /api/process-report] handler and the
    [POST /api/create-stripe-checkout] handler, together with the
    properties the specification states about them and further properties
    read off the code.

    Conventions of the embedding.
    - A JavaScript string is the list of its UTF-16 code units.
    - A JavaScript number is an IEEE 754 binary64 value, [+] is the sum
      rounded to the nearest value, ties to even.
    - [toLocaleString], [toLocaleDateString] follow the en-US locale the
      service is deployed with.
    - The external collaborators (PDF parser, inference API, JSON codec,
      SMTP transport, SQLite write) are fields of a record [Env]; the
      handler is a function of them.
    - Effects are explicit: a state-and-exception monad over [World]. *)

From Stdlib Require Import String Ascii.
From Stdlib Require Import List ZArith NArith Lia Bool.
Import ListNotations.
Local Open Scope Z_scope.

(* ================================================================== *)
(** ** JavaScript strings *)

Module JS.

Definition code_unit := N.
Definition jsstring := list code_unit.

Definition LF : jsstring := [10%N].
Definition QUOTE : code_unit := 34%N.
Definition APOSTROPHE : code_unit := 39%N.

Definition cont (b : N) : N := N.land b 63.

(** Code points of a UTF-8 byte sequence (the encoding of the source file). *)
Fixpoint utf8_points (bs : list N) : list N :=
  match bs with
  | [] => []
  | b0 :: r0 =>
      if (b0 <? 128)%N then b0 :: utf8_points r0
      else if (b0 <? 224)%N then
        match r0 with
        | b1 :: r1 =>
            N.lor (N.shiftl (N.land b0 31) 6) (cont b1) :: utf8_points r1
        | _ => []
        end
      else if (b0 <? 240)%N then
        match r0 with
        | b1 :: b2 :: r2 =>
            N.lor (N.shiftl (N.land b0 15) 12)
                  (N.lor (N.shiftl (cont b1) 6) (cont b2)) :: utf8_points r2
        | _ => []
        end
      else
        match r0 with
        | b1 :: b2 :: b3 :: r3 =>
            N.lor (N.shiftl (N.land b0 7) 18)
                  (N.lor (N.shiftl (cont b1) 12)
                         (N.lor (N.shiftl (cont b2) 6) (cont b3)))
              :: utf8_points r3
        | _ => []
        end
  end.

(** UTF-16 code units of one code point (a surrogate pair above the BMP). *)
Definition utf16_units (cp : N) : list code_unit :=
  if (cp <? 65536)%N then [cp]
  else let c := (cp - 65536)%N in
       [(55296 + N.shiftr c 10)%N; (56320 + N.land c 1023)%N].

(** A string literal of the source, as the JavaScript string it denotes. *)
Definition lit (s : string) : jsstring :=
  flat_map utf16_units
           (utf8_points (map N_of_ascii (list_ascii_of_string s))).

(** A literal of the source that contains double quotes, written here with
    an apostrophe at each of them (the literal itself has no apostrophe). *)
Definition lit_q (s : string) : jsstring :=
  map (fun c => if (c =? APOSTROPHE)%N then QUOTE else c) (lit s).

Fixpoint eqb (s t : jsstring) : bool :=
  match s, t with
  | [], [] => true
  | a :: s', b :: t' => (a =? b)%N && eqb s' t'
  | _, _ => false
  end.

Fixpoint startsWith (s p : jsstring) : bool :=
  match p, s with
  | [], _ => true
  | b :: p', a :: s' => (a =? b)%N && startsWith s' p'
  | _ :: _, [] => false
  end.

(** [String.prototype.includes]. *)
Fixpoint includes (s p : jsstring) : bool :=
  startsWith s p ||
  match s with
  | [] => false
  | _ :: s' => includes s' p
  end.

(** [String.prototype.substring(start, end)]: both bounds are clamped to
    [0, length] and swapped when out of order. *)
Definition clamp (len x : Z) : Z := Z.min (Z.max x 0) len.

Definition substring (s : jsstring) (start end_ : Z) : jsstring :=
  let len := Z.of_nat (length s) in
  let a := clamp len start in
  let b := clamp len end_ in
  let from := Z.min a b in
  let to := Z.max a b in
  firstn (Z.to_nat (to - from)) (skipn (Z.to_nat from) s).

(** *** Numbers *)

(** Decimal digits of a natural number, least significant first. *)
Fixpoint digits_rev (fuel : nat) (n : N) : list N :=
  match fuel with
  | O => []
  | S fuel' =>
      if (n <? 10)%N then [n]
      else (n mod 10)%N :: digits_rev fuel' (n / 10)%N
  end.

Definition digit_char (d : N) : code_unit := (48 + d)%N.

Definition digit_fuel (n : N) : nat := S (N.to_nat (N.log2 n)).

(** [Number.prototype.toString] on a non-negative integer. *)
Definition nat_toString (n : N) : jsstring :=
  rev (map digit_char (digits_rev (digit_fuel n) n)).

(** Thousands grouping over the digits taken least significant first:
    a comma after every third digit that has a successor. *)
Fixpoint group3 (ds : list code_unit) : list code_unit :=
  match ds with
  | a :: b :: c :: (_ :: _) as rest => a :: b :: c :: 44%N :: group3 rest
  | _ => ds
  end.

(** Template-literal conversion of an integer-valued number. *)
Definition toString (x : Z) : jsstring :=
  if x <? 0 then 45%N :: nat_toString (Z.abs_N x) else nat_toString (Z.abs_N x).

(** A JavaScript number: an IEEE 754 binary64 value.  A finite non-zero
    value is [(-1)^negative * mantissa * 2^exponent] with an odd mantissa,
    so that every value has one representation. *)
Inductive number :=
| NaN
| Infinity (negative : bool)
| Zero (negative : bool)
| Dyadic (negative : bool) (mantissa : positive) (exponent : Z).

Definition PRECISION : Z := 53.
Definition MIN_EXPONENT : Z := -1074.    (* 2^-1074 is the least positive value *)
Definition MAX_EXPONENT : Z := 1024.     (* values reach up to, not including, 2^1024 *)

(** The odd part of [m * 2^e]. *)
Fixpoint odd_part (m : positive) (e : Z) : positive * Z :=
  match m with
  | xO m' => odd_part m' (e + 1)
  | _ => (m, e)
  end.

Definition finite (negative : bool) (m : positive) (e : Z) : number :=
  let (m', e') := odd_part m e in Dyadic negative m' e'.

(** The exponent of the unit in the last place of a value whose binary
    logarithm has floor [L]. *)
Definition ulp_exponent (L : Z) : Z := Z.max (L - (PRECISION - 1)) MIN_EXPONENT.

(** Rounding of the exact value [m * 2^e] to the nearest binary64 value,
    ties to the even mantissa; overflow gives an infinity. *)
Definition round_dyadic (negative : bool) (m : positive) (e : Z) : number :=
  let L := Z.log2 (Zpos m) + e in
  if MAX_EXPONENT <=? L then Infinity negative
  else
    let u := ulp_exponent L in
    if u <=? e then finite negative m e
    else
      let k := u - e in
      let q := Zpos m / 2 ^ k in
      let r := Zpos m mod 2 ^ k in
      let half := 2 ^ (k - 1) in
      let q' := if (half <? r) || ((r =? half) && Z.odd q) then q + 1 else q in
      match q' with
      | Zpos p =>
          if MAX_EXPONENT <=? Z.log2 (Zpos p) + u then Infinity negative
          else finite negative p u
      | _ => Zero negative
      end.

(** The number value of an integer. *)
Definition number_of_Z (z : Z) : number :=
  match z with
  | Z0 => Zero false
  | Zpos p => round_dyadic false p 0
  | Zneg p => round_dyadic true p 0
  end.

Definition signed (negative : bool) (x : Z) : Z := if negative then - x else x.

(** [x + y] on numbers: the exact sum, rounded. *)
Definition number_add (x y : number) : number :=
  match x, y with
  | NaN, _ | _, NaN => NaN
  | Infinity a, Infinity b => if Bool.eqb a b then Infinity a else NaN
  | Infinity a, _ => Infinity a
  | _, Infinity b => Infinity b
  | Zero a, Zero b => Zero (a && b)
  | Zero _, _ => y
  | _, Zero _ => x
  | Dyadic s1 m1 e1, Dyadic s2 m2 e2 =>
      let e := Z.min e1 e2 in
      match signed s1 (Zpos m1 * 2 ^ (e1 - e)) + signed s2 (Zpos m2 * 2 ^ (e2 - e)) with
      | Z0 => Zero false
      | Zpos p => round_dyadic false p e
      | Zneg p => round_dyadic true p e
      end
  end.

(** *** Decimal rendering *)

(** Comparison of [n1 * 10^q1 * 2^b1] with [n2 * 10^q2 * 2^b2]. *)
Definition compare_scaled (n1 q1 b1 n2 q2 b2 : Z) : comparison :=
  let q := Z.min q1 q2 in
  let b := Z.min b1 b2 in
  (n1 * 10 ^ (q1 - q) * 2 ^ (b1 - b) ?= n2 * 10 ^ (q2 - q) * 2 ^ (b2 - b)).

(** [floor (n * 10^q * 2^b)]. *)
Definition floor_scaled (n q b : Z) : Z :=
  (n * 10 ^ Z.max q 0 * 2 ^ Z.max b 0) / (10 ^ Z.max (- q) 0 * 2 ^ Z.max (- b) 0).

(** [floor (log10 (m * 2^e))]. *)
Definition ilog10 (m : positive) (e : Z) : Z :=
  let est := ((Z.log2 (Zpos m) + e) * 1233) / 4096 in
  match compare_scaled (Zpos m) 0 e 1 est 0 with
  | Lt => est - 1
  | _ =>
      match compare_scaled (Zpos m) 0 e 1 (est + 1) 0 with
      | Lt => est
      | _ => est + 1
      end
  end.

(** The shortest decimal [s * 10^q] that reads back as the value
    [m * 2^e]: the rounding interval of the value reaches half way to its
    two neighbours (end points included when the 53-bit mantissa is even);
    the decimals with [k] digits nearest to the value are tried for
    k = 1, 2, ..., the nearer one first. *)
Fixpoint shortest_from (fuel : nat) (k : Z) (m : positive) (e : Z)
         (d : Z) (lo hi b : Z) (closed : bool) : Z * Z :=
  let q := d - k + 1 in
  let s1 := floor_scaled (Zpos m) (- q) e in
  let s2 := s1 + 1 in
  let inside s :=
    match compare_scaled lo 0 b s q 0, compare_scaled s q 0 hi 0 b with
    | Lt, Lt => true
    | Eq, (Lt | Eq) | Lt, Eq => closed
    | _, _ => false
    end in
  (* twice the value against s1 + s2: which of the two is nearer *)
  let nearer :=
    match compare_scaled (2 * Zpos m) 0 e (s1 + s2) q 0 with
    | Lt => s1
    | Gt => s2
    | Eq => if Z.even s1 then s1 else s2
    end in
  let other := if nearer =? s1 then s2 else s1 in
  if inside nearer then (nearer, q)
  else if inside other then (other, q)
  else
    match fuel with
    | O => (nearer, q)
    | S fuel' => shortest_from fuel' (k + 1) m e d lo hi b closed
    end.

Definition shortest (m : positive) (e : Z) : Z * Z :=
  let L := Z.log2 (Zpos m) + e in
  let u := ulp_exponent L in
  let M := Zpos m * 2 ^ (e - u) in            (* the integer mantissa *)
  let b := u - 2 in                           (* interval ends in units of 2^b *)
  let below := if (M =? 2 ^ (PRECISION - 1)) && (MIN_EXPONENT <? u) then 1 else 2 in
  shortest_from 17 1 m e (ilog10 m e) (4 * M - below) (4 * M + 2) b (Z.even M).

(** Rounding of [s * 10^q] to thousandths, halves away from zero. *)
Definition thousandths (s q : Z) : Z :=
  if -3 <=? q then s * 10 ^ (q + 3)
  else (2 * s + 10 ^ (- q - 3)) / (2 * 10 ^ (- q - 3)).

Definition decimal_digits (n : Z) : list code_unit :=
  map digit_char (digits_rev (digit_fuel (Z.to_N n)) (Z.to_N n)).

(** Up to three fraction digits, trailing zeros dropped. *)
Definition fraction_digits (f : Z) : jsstring :=
  if f =? 0 then []
  else
    let d1 := f / 100 in
    let d2 := (f / 10) mod 10 in
    let d3 := f mod 10 in
    46%N :: digit_char (Z.to_N d1)
         :: (if (d2 =? 0) && (d3 =? 0) then []
             else digit_char (Z.to_N d2)
                  :: (if d3 =? 0 then [] else [digit_char (Z.to_N d3)])).

Definition sign_text (negative : bool) : jsstring :=
  if negative then [45%N] else [].

(** [Number.prototype.toLocaleString()], en-US: the shortest decimal of
    the value, rounded to at most three fraction digits, the integer part
    grouped by thousands. *)
Definition toLocaleString (x : number) : jsstring :=
  match x with
  | NaN => lit "NaN"
  | Infinity s => sign_text s ++ lit "∞"
  | Zero s => sign_text s ++ lit "0"
  | Dyadic s m e =>
      let (d, q) := shortest m e in
      let t := thousandths d q in
      sign_text s ++ rev (group3 (decimal_digits (t / 1000)))
                  ++ fraction_digits (t mod 1000)
  end.

(** *** Dates *)

(** A [Date] object, by its local-time calendar fields ([getMonth] is
    zero-based, as in JavaScript). *)
Record Date := mkDate {
  getFullYear : Z;
  getMonth : Z;
  getDate : Z;
  getHours : Z;
  getMinutes : Z;
  getSeconds : Z
}.

(** [Date.prototype.toLocaleDateString()], en-US: month/day/year. *)
Definition toLocaleDateString (d : Date) : jsstring :=
  toString (getMonth d + 1) ++ lit "/" ++ toString (getDate d)
    ++ lit "/" ++ toString (getFullYear d).

End JS.

Import JS.

(* ================================================================== *)
(** ** Data model *)

(** The structure the analyzer is asked to return (the prompt of the
    handler spells it out). *)
Record InspectionItem := mkItem {
  section_number : jsstring;
  description : jsstring
}.

Record RepairCategory := mkCategory {
  category_name : jsstring;
  inspection_items : list InspectionItem;
  handyman_cost : number;
  contractor_cost : number;
  recommended_trade : jsstring
}.

Record Analysis := mkAnalysis {
  repair_categories : list RepairCategory;
  termites_mentioned : bool;
  pests_mentioned : bool;
  rot_mentioned : bool
}.

(** A thrown [Error]; the handler observes its [message] only. *)
Record Exception := mkError { message : jsstring }.

Inductive Outcome (A : Type) : Type :=
| Return (a : A)
| Throw (e : Exception).
Arguments Return {A} a.
Arguments Throw {A} e.

(** *** The [reports] table *)

Inductive SqlValue :=
| SqlNull
| SqlInteger (n : Z)
| SqlText (s : jsstring)
| SqlTimestamp (d : Date).

Inductive Column :=
| c_id | c_first_name | c_last_name | c_email | c_phone
| c_property_address | c_payment_id | c_payment_amount | c_report_data
| c_termites_mentioned | c_pests_mentioned | c_rot_mentioned | c_created_at.

Definition Column_eqb (a b : Column) : bool :=
  match a, b with
  | c_id, c_id | c_first_name, c_first_name | c_last_name, c_last_name
  | c_email, c_email | c_phone, c_phone
  | c_property_address, c_property_address | c_payment_id, c_payment_id
  | c_payment_amount, c_payment_amount | c_report_data, c_report_data
  | c_termites_mentioned, c_termites_mentioned
  | c_pests_mentioned, c_pests_mentioned
  | c_rot_mentioned, c_rot_mentioned | c_created_at, c_created_at => true
  | _, _ => false
  end.

(** One row of [CREATE TABLE reports]. *)
Record Row := mkRow {
  id : SqlValue;
  first_name : SqlValue;
  last_name : SqlValue;
  email : SqlValue;
  phone : SqlValue;
  property_address : SqlValue;
  payment_id : SqlValue;
  payment_amount : SqlValue;
  report_data : SqlValue;
  row_termites_mentioned : SqlValue;
  row_pests_mentioned : SqlValue;
  row_rot_mentioned : SqlValue;
  created_at : SqlValue
}.

(** *** Mail *)

Record Attachment := mkAttachment {
  filename : jsstring;
  content : jsstring
}.

Record Mail := mkMail {
  from : jsstring;
  to : jsstring;
  subject : jsstring;
  html : jsstring;
  attachments : list Attachment
}.

(** Which function of the source handed a mail to the transport. *)
Inductive Sender := ClientEmail | AdminEmail | GreenMantisEmail.

Definition Sender_eqb (a b : Sender) : bool :=
  match a, b with
  | ClientEmail, ClientEmail | AdminEmail, AdminEmail
  | GreenMantisEmail, GreenMantisEmail => true
  | _, _ => false
  end.

Record Dispatch := mkDispatch {
  sender : Sender;
  mail : Mail
}.

(** *** The inference request *)

Record ChatMessage := mkChat {
  role : jsstring;
  chat_content : jsstring
}.

Record CreateParams := mkParams {
  model : jsstring;
  max_tokens : Z;
  messages : list ChatMessage
}.

Record ContentBlock := mkBlock { text : jsstring }.

Record Message := mkMessage { message_content : list ContentBlock }.

(** *** The HTTP request and response *)

Record Body := mkBody {
  firstName : jsstring;
  lastName : jsstring;
  body_email : jsstring;
  body_phone : jsstring;
  propertyAddress : jsstring
}.

Record File := mkFile { buffer : list N }.

Record Request := mkRequest {
  body : Body;
  file : option File
}.

Inductive Json :=
| SuccessJson (report : jsstring)   (* { success: true, report } *)
| ErrorJson (error : jsstring).     (* { error } *)

Record Response := mkResponse {
  status : Z;
  json : Json
}.

(* ================================================================== *)
(** ** The world the handler runs in *)

(** External collaborators and configuration. *)
Record Env := mkEnv {
  FROM_EMAIL : jsstring;
  ADMIN_EMAIL : jsstring;
  (** [pdfParse(buffer)]: the extracted text, or a rejection. *)
  pdfParse : list N -> Outcome jsstring;
  (** [anthropic.messages.create(params)]. *)
  messages_create : CreateParams -> Outcome Message;
  (** [JSON.parse], read at the schema of [Analysis]; a text that is not
      JSON throws a [SyntaxError]. *)
  JSON_parse : jsstring -> Outcome Analysis;
  JSON_stringify : Analysis -> jsstring;
  (** Result of [transporter.sendMail(mail)], given the dispatches made
      before it: [None] when the transport accepts the mail. *)
  sendMail_error : list Dispatch -> Mail -> option Exception;
  (** Whether the INSERT queued by [db.run] succeeds. *)
  insert_lands : list Row -> Row -> bool
}.

Record World := mkWorld {
  clock : Date;                       (* what [new Date()] reads *)
  reports : list Row;                 (* table [reports], oldest first *)
  submitted : list CreateParams;      (* requests sent to the analyzer *)
  outbox : list Dispatch;             (* calls of [sendMail], oldest first *)
  console : list Exception;           (* [console.error] *)
  unhandled : list Row                (* INSERTs that failed: 'error' events
                                         that found no listener *)
}.

(** State and exceptions. *)
Definition M (A : Type) : Type := World -> Outcome A * World.

Definition ret {A} (a : A) : M A := fun w => (Return a, w).

Definition throw {A} (e : Exception) : M A := fun w => (Throw e, w).

Definition bind {A B} (c : M A) (k : A -> M B) : M B :=
  fun w =>
    match c w with
    | (Return a, w') => k a w'
    | (Throw e, w') => (Throw e, w')
    end.

Definition try_catch {A} (c : M A) (handler : Exception -> M A) : M A :=
  fun w =>
    match c w with
    | (Return a, w') => (Return a, w')
    | (Throw e, w') => handler e w'
    end.

Definition lift {A} (o : Outcome A) : M A := fun w => (o, w).

Declare Scope js_scope.
Delimit Scope js_scope with js.
Notation "x <- c ;; k" := (bind c (fun x => k))
  (at level 61, c at next level, right associativity) : js_scope.
Notation "c ;; k" := (bind c (fun _ => k))
  (at level 61, right associativity) : js_scope.
Local Open Scope js_scope.

(** [new Date()]. *)
Definition new_Date : M Date := fun w => (Return (clock w), w).

(** [arr.forEach((x, idx) => ...)] over a mutable accumulator. *)
Fixpoint forEach_from {A S : Type} (f : S -> A -> Z -> S)
         (idx : Z) (xs : list A) (acc : S) : S :=
  match xs with
  | [] => acc
  | x :: xs' => forEach_from f (idx + 1) xs' (f acc x idx)
  end.

Definition forEach {A S : Type} (f : S -> A -> Z -> S) (xs : list A) (acc : S) : S :=
  forEach_from f 0 xs acc.

(** [arr.reduce(f, init)]. *)
Definition reduce {A B : Type} (f : B -> A -> B) (init : B) (xs : list A) : B :=
  fold_left f xs init.

(* ================================================================== *)
(** ** [generateReportText] *)

Definition generateReportText
    (firstName lastName propertyAddress : jsstring) (analysis : Analysis)
  : M jsstring :=
  date_prepared <- new_Date ;;
  let report := lit "═══════════════════════════════════════════
         THE REPAIR INTEL
   COST ANALYSIS INTELLIGENCE REPORT
═══════════════════════════════════════════

PREPARED FOR:      " ++ firstName ++ lit " " ++ lastName ++ lit "
PROPERTY ADDRESS:  " ++ propertyAddress ++ lit "
DATE PREPARED:     " ++ toLocaleDateString date_prepared ++ lit "
PREPARED BY:       Anarumo Inspection Services

━━━━━━━━━━━━━━━━━━━━━━━━━━━━━━━━━━━━━━━━

EXECUTIVE SUMMARY

This intelligence report provides repair cost estimates 
based on your home inspection findings. Costs are shown 
as HANDYMAN to CONTRACTOR ranges.

═══════════════════════════════════════════

" in
  let report :=
    forEach (fun report cat idx =>
      let report := report ++ (category_name cat ++ LF ++ LF) in
      let report := report ++ (lit "Estimated Range: Handyman to Contractor" ++ LF) in
      let report := report ++ (lit "  Handyman Cost:   $"
                               ++ toLocaleString (handyman_cost cat) ++ LF) in
      let report := report ++ (lit "  Contractor Cost: $"
                               ++ toLocaleString (contractor_cost cat) ++ LF ++ LF) in
      let report := report ++ (lit "Referenced inspection items:" ++ LF) in
      let report :=
        forEach (fun report item (_ : Z) =>
          report ++ (lit "  • Section " ++ section_number item ++ lit " – "
                     ++ description item ++ LF))
          (inspection_items cat) report in
      let report := report ++ (LF ++ lit "Recommended Trade: "
                               ++ recommended_trade cat ++ LF) in
      if idx <? Z.of_nat (length (repair_categories analysis)) - 1
      then report ++ (LF ++ lit "───────────────────────────────────────────"
                      ++ LF ++ LF)
      else report)
    (repair_categories analysis) report in
  let totalHandyman :=
    reduce (fun sum cat => number_add sum (handyman_cost cat)) (number_of_Z 0)
           (repair_categories analysis) in
  let totalContractor :=
    reduce (fun sum cat => number_add sum (contractor_cost cat)) (number_of_Z 0)
           (repair_categories analysis) in
  copyright <- new_Date ;;
  let report := report ++ (LF ++ lit "═══════════════════════════════════════════

TOTAL ESTIMATED REPAIR RANGE

Handyman Total:   $" ++ toLocaleString totalHandyman ++ lit "
Contractor Total: $" ++ toLocaleString totalContractor ++ lit "

Note: These estimates are for negotiation context only.

═══════════════════════════════════════════
© " ++ toString (getFullYear copyright) ++ lit " The Repair Intel
") in
  ret report.

(* ================================================================== *)
(** ** Collaborator calls *)

Definition set_reports (w : World) (rs : list Row) : World :=
  mkWorld (clock w) rs (submitted w) (outbox w) (console w) (unhandled w).

Definition set_submitted (w : World) (ps : list CreateParams) : World :=
  mkWorld (clock w) (reports w) ps (outbox w) (console w) (unhandled w).

Definition set_outbox (w : World) (ds : list Dispatch) : World :=
  mkWorld (clock w) (reports w) (submitted w) ds (console w) (unhandled w).

Definition set_console (w : World) (es : list Exception) : World :=
  mkWorld (clock w) (reports w) (submitted w) (outbox w) es (unhandled w).

Definition set_unhandled (w : World) (rs : list Row) : World :=
  mkWorld (clock w) (reports w) (submitted w) (outbox w) (console w) rs.

(** [anthropic.messages.create(params)]: the request leaves the process,
    then the service answers or fails. *)
Definition anthropic_messages_create (env : Env) (params : CreateParams)
  : M Message :=
  fun w => (messages_create env params,
            set_submitted w (submitted w ++ [params])).

(** [transporter.sendMail(mail)], called from the function [s]. *)
Definition transporter_sendMail (env : Env) (s : Sender) (m : Mail) : M unit :=
  fun w =>
    let w' := set_outbox w (outbox w ++ [mkDispatch s m]) in
    match sendMail_error env (outbox w) m with
    | None => (Return tt, w')
    | Some e => (Throw e, w')
    end.

Definition console_error (e : Exception) : M unit :=
  fun w => (Return tt, set_console w (console w ++ [e])).

(** The value bound to column [c] by [INSERT INTO reports (cols) VALUES (?, ...)]. *)
Fixpoint bound (c : Column) (cols : list Column) (params : list SqlValue)
  : option SqlValue :=
  match cols, params with
  | c' :: cols', v :: params' =>
      if Column_eqb c c' then Some v else bound c cols' params'
  | _, _ => None
  end.

Definition integer_of (v : SqlValue) : Z :=
  match v with SqlInteger n => n | _ => 0 end.

(** [INTEGER PRIMARY KEY AUTOINCREMENT]: one more than the largest id. *)
Definition next_id (table : list Row) : Z :=
  1 + fold_left (fun m r => Z.max m (integer_of (id r))) table 0.

(** Columns the statement does not name take the defaults of the schema:
    the generated id, [CURRENT_TIMESTAMP] for [created_at], NULL otherwise. *)
Definition column_default (table : list Row) (now : Date) (c : Column) : SqlValue :=
  match c with
  | c_id => SqlInteger (next_id table)
  | c_created_at => SqlTimestamp now
  | _ => SqlNull
  end.

Definition inserted_row (table : list Row) (now : Date)
    (cols : list Column) (params : list SqlValue) : Row :=
  let cell c :=
    match bound c cols params with
    | Some v => v
    | None => column_default table now c
    end in
  mkRow (cell c_id) (cell c_first_name) (cell c_last_name) (cell c_email)
        (cell c_phone) (cell c_property_address) (cell c_payment_id)
        (cell c_payment_amount) (cell c_report_data)
        (cell c_termites_mentioned) (cell c_pests_mentioned)
        (cell c_rot_mentioned) (cell c_created_at).

(** [db.run(sql, params)] without a callback: the statement is queued and
    the caller goes on.  When the statement fails, the error has no
    callback to go to and is emitted as an ['error'] event; nothing listens
    for it, so it is an uncaught exception raised outside the handler (its
    [catch] does not see it) that ends the process.  The world keeps the
    row of every such INSERT in [unhandled]; what the handler is shown to
    do after one is what it does for as long as the process is still
    running. *)
Definition db_run_insert (env : Env) (cols : list Column) (params : list SqlValue)
  : M unit :=
  fun w =>
    let row := inserted_row (reports w) (clock w) cols params in
    (Return tt,
     if insert_lands env (reports w) row
     then set_reports w (reports w ++ [row])
     else set_unhandled w (unhandled w ++ [row])).

(** A JavaScript boolean bound to a statement parameter. *)
Definition sql_bool (b : bool) : SqlValue := SqlInteger (if b then 1 else 0).

(* ================================================================== *)
(** ** The mail templates *)

(** Each [send...Email] builds one mail (the object literal of the source)
    and awaits [transporter.sendMail] on it. *)
Definition clientMail (env : Env) (email name address reportText : jsstring)
  : Mail :=
    {| from := lit_q "'The Repair Intel' <" ++ FROM_EMAIL env ++ lit ">";
       to := email;
       subject := lit "Your Repair Intel Report - " ++ address;
       html := lit "<h2>Hi " ++ name ++ lit ",</h2>
           <p>Your Repair Intel report for " ++ address ++ lit " is ready!</p>
           <p>See attached PDF.</p>
           <p>Best,<br>The Repair Intel Team</p>";
       attachments := [ {| filename := lit "RepairIntel_Report.txt";
                           content := reportText |} ] |}.

Definition sendClientEmail (env : Env) (email name address reportText : jsstring)
  : M unit :=
  transporter_sendMail env ClientEmail
    (clientMail env email name address reportText).

Definition adminMail (env : Env)
    (firstName lastName email phone address : jsstring) (analysis : Analysis)
  : Mail :=
    {| from := lit_q "'The Repair Intel' <" ++ FROM_EMAIL env ++ lit ">";
       to := FROM_EMAIL env;
       subject := lit "✅ New Report Generated - $49.99";
       html := lit "<h3>NEW CUSTOMER</h3>
           <p><strong>Name:</strong> " ++ firstName ++ lit " " ++ lastName ++ lit "</p>
           <p><strong>Email:</strong> " ++ email ++ lit "</p>
           <p><strong>Phone:</strong> " ++ phone ++ lit "</p>
           <p><strong>Property:</strong> " ++ address ++ lit "</p>";
       attachments := [] |}.

Definition sendAdminEmail (env : Env)
    (firstName lastName email phone address : jsstring) (analysis : Analysis)
  : M unit :=
  transporter_sendMail env AdminEmail
    (adminMail env firstName lastName email phone address analysis).

Definition greenMantisMail (env : Env)
    (firstName lastName email phone address : jsstring) (analysis : Analysis)
  : Mail :=
    {| from := lit_q "'The Repair Intel' <" ++ FROM_EMAIL env ++ lit ">";
       to := ADMIN_EMAIL env;
       subject := lit "🐜 Pest Lead - " ++ address;
       html := lit "<h3>NEW PEST OPPORTUNITY</h3>
           <p><strong>Client:</strong> " ++ firstName ++ lit " " ++ lastName ++ lit "</p>
           <p><strong>Phone:</strong> " ++ phone ++ lit "</p>
           <p><strong>Email:</strong> " ++ email ++ lit "</p>
           <p><strong>Property:</strong> " ++ address ++ lit "</p>
           <p><strong>Findings:</strong> Pest/termite activity detected</p>";
       attachments := [] |}.

Definition sendGreenMantisEmail (env : Env)
    (firstName lastName email phone address : jsstring) (analysis : Analysis)
  : M unit :=
  transporter_sendMail env GreenMantisEmail
    (greenMantisMail env firstName lastName email phone address analysis).

(* ================================================================== *)
(** ** [POST /api/process-report] *)

Definition MAX_INSPECTION_TEXT : Z := 40000.

(** The fixed part of the prompt, up to the inspection text. *)
Definition PROMPT : jsstring :=
  lit_q "Analyze this home inspection report and create repair cost estimates.
        
Return JSON with this structure:
{
  'repair_categories': [
    {
      'category_name': 'string',
      'inspection_items': [{'section_number': 'string', 'description': 'string'}],
      'handyman_cost': number,
      'contractor_cost': number,
      'recommended_trade': 'string'
    }
  ],
  'termites_mentioned': boolean,
  'pests_mentioned': boolean,
  'rot_mentioned': boolean
}

Inspection text: ".

Definition reading_undefined (property : string) : Exception :=
  mkError (lit "Cannot read properties of undefined (reading '"
           ++ lit property ++ lit "')").

(** [res.json(...)] and [res.status(500).json(...)]. *)
Definition res_json (j : Json) : Response := mkResponse 200 j.
Definition res_status_json (code : Z) (j : Json) : Response := mkResponse code j.

Definition process_report (env : Env) (req : Request) : M Response :=
  try_catch
    (let firstName := firstName (body req) in
     let lastName := lastName (body req) in
     let email := body_email (body req) in
     let phone := body_phone (body req) in
     let propertyAddress := propertyAddress (body req) in
     pdfBuffer <- match file req with
                  | Some f => ret (buffer f)
                  | None => throw (reading_undefined "buffer")
                  end ;;
     (* Parse PDF *)
     pdfText <- lift (pdfParse env pdfBuffer) ;;
     (* Analyze *)
     message <- anthropic_messages_create env
       {| model := lit "claude-sonnet-4-20250514";
          max_tokens := 4000;
          messages :=
            [ {| role := lit "user";
                 chat_content :=
                   PROMPT ++ substring pdfText 0 MAX_INSPECTION_TEXT |} ] |} ;;
     block <- match message_content message with
              | b :: _ => ret b
              | [] => throw (reading_undefined "text")
              end ;;
     analysis <- lift (JSON_parse env (text block)) ;;
     (* Generate report text *)
     reportText <- generateReportText firstName lastName propertyAddress analysis ;;
     (* Save to database *)
     db_run_insert env
       [c_first_name; c_last_name; c_email; c_phone; c_property_address;
        c_report_data; c_termites_mentioned; c_pests_mentioned; c_rot_mentioned]
       [SqlText firstName; SqlText lastName; SqlText email; SqlText phone;
        SqlText propertyAddress; SqlText (JSON_stringify env analysis);
        sql_bool (termites_mentioned analysis);
        sql_bool (pests_mentioned analysis);
        sql_bool (rot_mentioned analysis)] ;;
     (* Send emails *)
     sendClientEmail env email firstName propertyAddress reportText ;;
     sendAdminEmail env firstName lastName email phone propertyAddress analysis ;;
     (if termites_mentioned analysis || pests_mentioned analysis
      then sendGreenMantisEmail env firstName lastName email phone
                                propertyAddress analysis
      else ret tt) ;;
     ret (res_json (SuccessJson reportText)))
    (fun error =>
       console_error error ;;
       ret (res_status_json 500 (ErrorJson (message error)))).

(* ================================================================== *)
(** ** The report as the specification describes it

    A header, one block per category joined by separators, the totals
    section and the copyright line.  These definitions follow the
    specification's wording; the theorems below compare them with
    [generateReportText]. *)

Definition report_header (firstName lastName propertyAddress : jsstring) (now : Date)
  : jsstring :=
  lit "═══════════════════════════════════════════
         THE REPAIR INTEL
   COST ANALYSIS INTELLIGENCE REPORT
═══════════════════════════════════════════

PREPARED FOR:      " ++ firstName ++ lit " " ++ lastName ++ lit "
PROPERTY ADDRESS:  " ++ propertyAddress ++ lit "
DATE PREPARED:     " ++ toLocaleDateString now ++ lit "
PREPARED BY:       Anarumo Inspection Services

━━━━━━━━━━━━━━━━━━━━━━━━━━━━━━━━━━━━━━━━

EXECUTIVE SUMMARY

This intelligence report provides repair cost estimates 
based on your home inspection findings. Costs are shown 
as HANDYMAN to CONTRACTOR ranges.

═══════════════════════════════════════════

".

(** "Section {id} – {description}", one bullet line per inspection item. *)
Definition item_line (item : InspectionItem) : jsstring :=
  lit "  • Section " ++ section_number item ++ lit " – "
    ++ description item ++ LF.

(** Category name, the cost-range lines, the items, the recommended trade. *)
Definition category_block (cat : RepairCategory) : jsstring :=
  (category_name cat ++ LF ++ LF)
    ++ (lit "Estimated Range: Handyman to Contractor" ++ LF)
    ++ (lit "  Handyman Cost:   $" ++ toLocaleString (handyman_cost cat) ++ LF)
    ++ (lit "  Contractor Cost: $" ++ toLocaleString (contractor_cost cat)
        ++ LF ++ LF)
    ++ (lit "Referenced inspection items:" ++ LF)
    ++ concat (map item_line (inspection_items cat))
    ++ (LF ++ lit "Recommended Trade: " ++ recommended_trade cat ++ LF).

Definition SEPARATOR : jsstring :=
  LF ++ lit "───────────────────────────────────────────" ++ LF ++ LF.

(** Blocks with a separator between consecutive ones, none after the last. *)
Fixpoint separated (sep : jsstring) (blocks : list jsstring) : jsstring :=
  match blocks with
  | [] => []
  | [b] => b
  | b :: rest => b ++ sep ++ separated sep rest
  end.

(** The sum of a list of amounts as the code's numbers give it: each
    amount is added in turn, starting from 0, every sum rounded to the
    nearest number. *)
Definition total (amounts : list number) : number :=
  fold_left number_add amounts (number_of_Z 0).

(** The sum of a list of integers. *)
Fixpoint exact_total (amounts : list Z) : Z :=
  match amounts with
  | [] => 0
  | x :: rest => x + exact_total rest
  end.

(** Integers that numbers hold exactly, together with their neighbours. *)
Definition safe_integer (z : Z) : Prop := Z.abs z < 2 ^ 53.

(** Every amount and every partial sum, taken in order from [acc], is a
    safe integer. *)
Fixpoint safe_sums (acc : Z) (amounts : list Z) : Prop :=
  match amounts with
  | [] => True
  | x :: rest => safe_integer x /\ safe_integer (acc + x) /\ safe_sums (acc + x) rest
  end.

Definition totals_section (totalHandyman totalContractor : number) : jsstring :=
  LF ++ lit "═══════════════════════════════════════════

TOTAL ESTIMATED REPAIR RANGE

Handyman Total:   $" ++ toLocaleString totalHandyman ++ lit "
Contractor Total: $" ++ toLocaleString totalContractor ++ lit "

Note: These estimates are for negotiation context only.

═══════════════════════════════════════════
".

Definition copyright_line (now : Date) : jsstring :=
  lit "© " ++ toString (getFullYear now) ++ lit " The Repair Intel
".

Definition report_text (firstName lastName propertyAddress : jsstring)
    (categories : list RepairCategory) (now : Date) : jsstring :=
  report_header firstName lastName propertyAddress now
    ++ separated SEPARATOR (map category_block categories)
    ++ totals_section (total (map handyman_cost categories))
                      (total (map contractor_cost categories))
    ++ copyright_line now.

(* ================================================================== *)
(** ** Views of a run of the handler *)

(** The request the handler submits for an extracted text. *)
Definition inference_request (pdfText : jsstring) : CreateParams :=
  {| model := lit "claude-sonnet-4-20250514";
     max_tokens := 4000;
     messages :=
       [ {| role := lit "user";
            chat_content := PROMPT ++ substring pdfText 0 MAX_INSPECTION_TEXT |} ] |}.

(** The text extraction step: the uploaded file, parsed. *)
Definition extraction_step (env : Env) (req : Request) : Outcome jsstring :=
  match file req with
  | Some f => pdfParse env (buffer f)
  | None => Throw (reading_undefined "buffer")
  end.

(** The analysis step, from the upload to the parsed estimate. *)
Definition analysis_step (env : Env) (req : Request) : Outcome Analysis :=
  match extraction_step env req with
  | Throw e => Throw e
  | Return pdfText =>
      match messages_create env (inference_request pdfText) with
      | Throw e => Throw e
      | Return message =>
          match message_content message with
          | [] => Throw (reading_undefined "text")
          | block :: _ => JSON_parse env (text block)
          end
      end
  end.

(** The requests that leave for the analyzer during a run. *)
Definition analyzer_calls (env : Env) (req : Request) : list CreateParams :=
  match extraction_step env req with
  | Throw _ => []
  | Return pdfText => [inference_request pdfText]
  end.

(** The row the INSERT of the handler describes. *)
Definition stored_record (env : Env) (b : Body) (analysis : Analysis)
    (table : list Row) (now : Date) : Row :=
  {| id := SqlInteger (next_id table);
     first_name := SqlText (firstName b);
     last_name := SqlText (lastName b);
     email := SqlText (body_email b);
     phone := SqlText (body_phone b);
     property_address := SqlText (propertyAddress b);
     payment_id := SqlNull;
     payment_amount := SqlNull;
     report_data := SqlText (JSON_stringify env analysis);
     row_termites_mentioned := sql_bool (termites_mentioned analysis);
     row_pests_mentioned := sql_bool (pests_mentioned analysis);
     row_rot_mentioned := sql_bool (rot_mentioned analysis);
     created_at := SqlTimestamp now |}.

Definition client_dispatch (env : Env) (b : Body) (reportText : jsstring) : Dispatch :=
  mkDispatch ClientEmail
    (clientMail env (body_email b) (firstName b) (propertyAddress b) reportText).

Definition admin_dispatch (env : Env) (b : Body) (analysis : Analysis) : Dispatch :=
  mkDispatch AdminEmail
    (adminMail env (firstName b) (lastName b) (body_email b) (body_phone b)
               (propertyAddress b) analysis).

Definition lead_dispatch (env : Env) (b : Body) (analysis : Analysis) : Dispatch :=
  mkDispatch GreenMantisEmail
    (greenMantisMail env (firstName b) (lastName b) (body_email b) (body_phone b)
                     (propertyAddress b) analysis).

(** The sends the handler intends, in order. *)
Definition notifications (env : Env) (b : Body) (analysis : Analysis)
    (reportText : jsstring) : list Dispatch :=
  client_dispatch env b reportText :: admin_dispatch env b analysis ::
  (if termites_mentioned analysis || pests_mentioned analysis
   then [lead_dispatch env b analysis] else []).

(** Sequential delivery: each send is handed to the transport in turn and
    the first error ends the sequence. *)
Fixpoint deliver (env : Env) (out : list Dispatch) (plan : list Dispatch)
  : list Dispatch * option Exception :=
  match plan with
  | [] => ([], None)
  | d :: rest =>
      match sendMail_error env out (mail d) with
      | Some e => ([d], Some e)
      | None =>
          let (ds, r) := deliver env (out ++ [d]) rest in (d :: ds, r)
      end
  end.

Definition sent_by (s : Sender) (ds : list Dispatch) : nat :=
  length (filter (fun d => Sender_eqb (sender d) s) ds).

(** The dispatches a run added to the outbox. *)
Definition dispatched (before after : World) : list Dispatch :=
  skipn (length (outbox before)) (outbox after).

Definition failure_response (e : Exception) : Response :=
  res_status_json 500 (ErrorJson (message e)).

Definition success_response (reportText : jsstring) : Response :=
  res_json (SuccessJson reportText).

(* ================================================================== *)
(** ** [POST /api/create-stripe-checkout] *)

(** *** [parseInt] *)

(** White space and line terminators, as [parseInt] skips them. *)
Definition is_whitespace (c : code_unit) : bool :=
  ((9 <=? c) && (c <=? 13) || (c =? 32) || (c =? 160) || (c =? 5760)
   || (8192 <=? c) && (c <=? 8202) || (c =? 8232) || (c =? 8233)
   || (c =? 8239) || (c =? 8287) || (c =? 12288) || (c =? 65279))%N.

Fixpoint trimStart (s : jsstring) : jsstring :=
  match s with
  | c :: rest => if is_whitespace c then trimStart rest else s
  | [] => []
  end.

(** The value of a code unit as a digit of the given radix. *)
Definition digit_value (radix : N) (c : code_unit) : option N :=
  let v := if ((48 <=? c) && (c <=? 57))%N then Some (c - 48)%N
           else if ((97 <=? c) && (c <=? 122))%N then Some (c - 87)%N
           else if ((65 <=? c) && (c <=? 90))%N then Some (c - 55)%N
           else None in
  match v with
  | Some d => if (d <? radix)%N then Some d else None
  | None => None
  end.

(** The longest prefix of digits, as a number; [acc] is [None] until a
    digit has been read. *)
Fixpoint parse_digits (radix : N) (s : jsstring) (acc : option N) : option N :=
  match s with
  | c :: rest =>
      match digit_value radix c with
      | Some d =>
          parse_digits radix rest
            (Some (radix * match acc with Some a => a | None => 0 end + d)%N)
      | None => acc
      end
  | [] => acc
  end.

(** An optional sign in front of the digits. *)
Definition read_sign (s : jsstring) : Z * jsstring :=
  match s with
  | 45%N :: rest => (-1, rest)
  | 43%N :: rest => (1, rest)
  | _ => (1, s)
  end.

(** Without a radix argument, a [0x] or [0X] prefix selects radix 16. *)
Definition read_radix (s : jsstring) : N * jsstring :=
  match s with
  | 48%N :: x :: rest =>
      if ((x =? 120) || (x =? 88))%N then (16%N, rest) else (10%N, s)
  | _ => (10%N, s)
  end.

(** [parseInt(string)] without a radix: leading white space is skipped, a
    sign is read, the radix is chosen, then the longest prefix of digits
    is taken and its value is returned as a number, the nearest one when
    the integer is not a number itself; without a digit the result is
    [NaN].  (For more than 20 significant digits an engine may read an
    approximation of the integer; the nearest number is what is modelled.) *)
Definition parseInt (input : jsstring) : number :=
  let '(sign, s) := read_sign (trimStart input) in
  let '(radix, s) := read_radix s in
  match parse_digits radix s None with
  | Some 0%N => Zero (sign <? 0)
  | Some n => number_of_Z (sign * Z.of_N n)
  | None => NaN
  end.

(** *** The checkout session *)

Record ProductData := mkProduct {
  product_name : jsstring;
  product_description : jsstring
}.

Record PriceData := mkPrice {
  currency : jsstring;
  product_data : ProductData;
  unit_amount : number
}.

Record LineItem := mkLineItem {
  price_data : PriceData;
  quantity : Z
}.

Record SessionParams := mkSessionParams {
  payment_method_types : list jsstring;
  line_items : list LineItem;
  mode : jsstring;
  success_url : jsstring;
  cancel_url : jsstring
}.

Record Session := mkSession { session_id : jsstring }.

(** Configuration and the payment provider. *)
Record CheckoutEnv := mkCheckoutEnv {
  REPORT_PRICE : option jsstring;       (* [process.env.REPORT_PRICE] *)
  sessions_create : SessionParams -> Outcome Session
}.

(** The request, by the one header the handler reads. *)
Record CheckoutRequest := mkCheckoutRequest {
  origin : option jsstring              (* [req.headers.origin] *)
}.

Inductive CheckoutJson :=
| SessionJson (sessionId : jsstring)      (* { sessionId } *)
| CheckoutErrorJson (error : jsstring).   (* { error } *)

Record CheckoutResponse := mkCheckoutResponse {
  checkout_status : Z;
  checkout_json : CheckoutJson
}.

(** A value spliced into a template literal; a missing one prints as
    [undefined]. *)
Definition spliced (v : option jsstring) : jsstring :=
  match v with
  | Some s => s
  | None => lit "undefined"
  end.

(** [parseInt(process.env.REPORT_PRICE || 4999)]: an unset or empty
    variable is falsy and gives the number 4999, which [parseInt] turns
    into a string first. *)
Definition report_price (env : CheckoutEnv) : number :=
  parseInt match REPORT_PRICE env with
           | Some (c :: s) => c :: s
           | Some [] | None => toString 4999
           end.

(** The object literal handed to [stripe.checkout.sessions.create]. *)
Definition checkout_params (env : CheckoutEnv) (req : CheckoutRequest)
  : SessionParams :=
  {| payment_method_types := [lit "card"];
     line_items :=
       [ {| price_data :=
              {| currency := lit "usd";
                 product_data :=
                   {| product_name := lit "Repair Intel Report";
                      product_description :=
                        lit "AI-Powered Home Inspection Cost Analysis" |};
                 unit_amount := report_price env |};
            quantity := 1 |} ];
     mode := lit "payment";
     success_url := spliced (origin req)
                    ++ lit "/success?session_id={CHECKOUT_SESSION_ID}";
     cancel_url := spliced (origin req) ++ lit "/cancel" |}.

Definition create_stripe_checkout (env : CheckoutEnv) (req : CheckoutRequest)
  : M CheckoutResponse :=
  try_catch
    (session <- lift (sessions_create env (checkout_params env req)) ;;
     ret (mkCheckoutResponse 200 (SessionJson (session_id session))))
    (fun error =>
       ret (mkCheckoutResponse 500 (CheckoutErrorJson (message error)))).

(* ================================================================== *)
(** ** Reading a rendering back *)

(** The number a list of decimal digits denotes, least significant first. *)
Fixpoint digits_value (ds : list N) : N :=
  match ds with
  | [] => 0
  | d :: rest => d + 10 * digits_value rest
  end%N.

(** One step of reading decimal digits, most significant first. *)
Definition read_step (acc : option N) (d : N) : option N :=
  Some (10 * match acc with Some a => a | None => 0 end + d)%N.

(** A decimal digit, as [parseInt] sees it in radix 10. *)
Definition is_decimal_digit (c : code_unit) : bool :=
  match digit_value 10 c with
  | Some _ => true
  | None => false
  end.

(** What may follow a rendering without changing how it is read. *)
Definition ends_number (tl : jsstring) : Prop :=
  match tl with
  | [] => True
  | c :: _ => is_decimal_digit c = false /\ c <> 120%N /\ c <> 88%N
  end.

(* ================================================================== *)
(** ** Well-formed tables *)

(** Every row has an integer id and no two rows share one. *)
Definition ids_distinct (table : list Row) : Prop :=
  Forall (fun r => exists n, id r = SqlInteger n) table
  /\ NoDup (map (fun r => integer_of (id r)) table).

(* ================================================================== *)
(** ** Sample inputs *)

(** The end-to-end example of the specification. *)
Definition jane : Body :=
  {| firstName := lit "Jane";
     lastName := lit "Doe";
     body_email := lit "jane@example.com";
     body_phone := lit "555-0100";
     propertyAddress := lit "123 Main St" |}.

Definition roof_repair : RepairCategory :=
  {| category_name := lit "Roof Repair";
     inspection_items :=
       [ {| section_number := lit "3.2"; description := lit "Missing shingles" |} ];
     handyman_cost := number_of_Z 500;
     contractor_cost := number_of_Z 1200;
     recommended_trade := lit "Roofer" |}.

Definition roof_estimate (termites pests rot : bool) : Analysis :=
  mkAnalysis [roof_repair] termites pests rot.

Definition inspection_day : Date := mkDate 2026 10 2 9 30 0.

Definition quiet_world : World := mkWorld inspection_day [] [] [] [] [].

Definition connection_timeout : Exception := mkError (lit "Connection timeout").

Definition unexpected_end : Exception :=
  mkError (lit "Unexpected end of JSON input").

(** A transport that accepts every mail. *)
Definition smtp_up (out : list Dispatch) (m : Mail) : option Exception := None.

(** A transport that fails on the [n]-th send of a run started with an
    empty outbox (counting from 0). *)
Definition smtp_failing_at (n : nat) (out : list Dispatch) (m : Mail)
  : option Exception :=
  if Nat.eqb (length out) n then Some connection_timeout else None.

(** What the PDF parser extracts from the sample upload. *)
Definition roof_finding_text : jsstring :=
  lit "3.2 Roof: missing shingles at the ridge.".

Definition sample_env (parsed : Outcome Analysis)
    (smtp : list Dispatch -> Mail -> option Exception) (lands : bool) : Env :=
  {| FROM_EMAIL := lit "reports@therepairintel.com";
     ADMIN_EMAIL := lit "leads@greenmantis.example";
     pdfParse := fun _ => Return roof_finding_text;
     messages_create := fun _ => Return (mkMessage [mkBlock (lit "{ }")]);
     JSON_parse := fun _ => parsed;
     JSON_stringify := fun _ => lit "{ }";
     sendMail_error := smtp;
     insert_lands := fun _ _ => lands |}.

Definition jane_request : Request :=
  {| body := jane; file := Some (mkFile [37; 80; 68; 70]%N) |}.

(** A world that already holds one stored report and one sent mail. *)
Definition busy_world : World :=
  {| clock := inspection_day;
     reports := [stored_record (sample_env (Throw unexpected_end) smtp_up true)
                               jane (roof_estimate false false true) []
                               inspection_day];
     submitted := [];
     outbox := [admin_dispatch (sample_env (Throw unexpected_end) smtp_up true)
                               jane (roof_estimate false false true)];
     console := [];
     unhandled := [] |}.

(** The same name and address submitted with other
    contact details. *)
Definition second_contact : Body :=
  {| firstName := lit "Jane";
     lastName := lit "Doe";
     body_email := lit "j.doe@example.org";
     body_phone := lit "555-0199";
     propertyAddress := lit "123 Main St" |}.

(** Collaborators that all succeed, for an estimate without pest flags. *)
Definition env_all_up : Env :=
  sample_env (Return (roof_estimate false false false)) smtp_up true.

(** The analyzer reports termites; the transport fails on the client mail. *)
Definition env_client_send_fails : Env :=
  sample_env (Return (roof_estimate true false false)) (smtp_failing_at 0) true.

(** The analyzer reports termites; the transport fails on the admin mail. *)
Definition env_admin_send_fails : Env :=
  sample_env (Return (roof_estimate true false false)) (smtp_failing_at 1) true.

(** The analyzer reports pests; every collaborator succeeds. *)
Definition env_pests_reported : Env :=
  sample_env (Return (roof_estimate false true false)) smtp_up true.

(** The analyzer answers with prose instead of JSON. *)
Definition env_unparseable : Env :=
  sample_env (Throw unexpected_end) smtp_up true.

(** A submission that carries no file. *)
Definition request_without_upload : Request :=
  {| body := jane; file := None |}.

(** The inference service answers with an empty content array. *)
Definition env_empty_answer : Env :=
  {| FROM_EMAIL := lit "reports@therepairintel.com";
     ADMIN_EMAIL := lit "leads@greenmantis.example";
     pdfParse := fun _ => Return roof_finding_text;
     messages_create := fun _ => Return (mkMessage []);
     JSON_parse := fun _ => Return (roof_estimate false false false);
     JSON_stringify := fun _ => lit "{ }";
     sendMail_error := smtp_up;
     insert_lands := fun _ _ => true |}.

(** A payment provider that opens a session for whatever it is asked. *)
Definition stripe_up (price : option jsstring) : CheckoutEnv :=
  {| REPORT_PRICE := price;
     sessions_create := fun _ => Return (mkSession (lit "cs_test_a1b2c3")) |}.

Definition browser_checkout : CheckoutRequest :=
  {| origin := Some (lit "https://www.therepairintel.com") |}.

(** The same day, in the evening. *)
Definition evening_world : World :=
  mkWorld (mkDate 2026 10 2 21 5 40) [] [] [] [] [].

(** Three categories whose handyman costs are 2^53, 1 and 1: each is a
    number, and so is their sum, 2^53 + 2. *)
Definition foundation_work (cost : Z) : RepairCategory :=
  {| category_name := lit "Foundation";
     inspection_items := [];
     handyman_cost := number_of_Z cost;
     contractor_cost := number_of_Z cost;
     recommended_trade := lit "Structural engineer" |}.

Definition costly_estimate : Analysis :=
  mkAnalysis [foundation_work (2 ^ 53); foundation_work 1; foundation_work 1]
             false false false.

(* ================================================================== *)
(** ** The loops of [generateReportText] *)

Lemma forEach_from_app {A : Type} (line : A -> jsstring) :
  forall (xs : list A) (idx : Z) (acc : jsstring),
    forEach_from (fun report x (_ : Z) => report ++ line x) idx xs acc
    = acc ++ concat (map line xs).
Proof.
  induction xs as [|x xs IH]; intros idx acc; simpl.
  - now rewrite app_nil_r.
  - rewrite IH. now rewrite <- app_assoc.
Qed.

Lemma reduce_total {A : Type} (amount : A -> number) :
  forall (xs : list A) (init : number),
    reduce (fun sum x => number_add sum (amount x)) init xs
    = fold_left number_add (map amount xs) init.
Proof.
  unfold reduce.
  induction xs as [|x xs IH]; intros init; [reflexivity|].
  cbn [fold_left map]. apply IH.
Qed.

Section CategoryLoop.
Variable len : Z.

(** The callback of the outer [forEach], for a list of [len] categories. *)
Let emit (report : jsstring) (cat : RepairCategory) (idx : Z) : jsstring :=
  let report := report ++ (category_name cat ++ LF ++ LF) in
  let report := report ++ (lit "Estimated Range: Handyman to Contractor" ++ LF) in
  let report := report ++ (lit "  Handyman Cost:   $"
                           ++ toLocaleString (handyman_cost cat) ++ LF) in
  let report := report ++ (lit "  Contractor Cost: $"
                           ++ toLocaleString (contractor_cost cat) ++ LF ++ LF) in
  let report := report ++ (lit "Referenced inspection items:" ++ LF) in
  let report :=
    forEach (fun report item (_ : Z) =>
      report ++ (lit "  • Section " ++ section_number item ++ lit " – "
                 ++ description item ++ LF))
      (inspection_items cat) report in
  let report := report ++ (LF ++ lit "Recommended Trade: "
                           ++ recommended_trade cat ++ LF) in
  if idx <? len - 1
  then report ++ (LF ++ lit "───────────────────────────────────────────"
                  ++ LF ++ LF)
  else report.

Lemma emit_block (report : jsstring) (cat : RepairCategory) (idx : Z) :
  emit report cat idx
  = report ++ category_block cat ++ (if idx <? len - 1 then SEPARATOR else []).
Proof.
  unfold emit, category_block, forEach.
  rewrite (forEach_from_app item_line).
  destruct (idx <? len - 1); unfold SEPARATOR;
    repeat rewrite <- app_assoc; try rewrite app_nil_r; reflexivity.
Qed.

Lemma forEach_from_blocks :
  forall (cats : list RepairCategory) (idx : Z) (acc : jsstring),
    idx + Z.of_nat (length cats) = len ->
    forEach_from emit idx cats acc
    = acc ++ separated SEPARATOR (map category_block cats).
Proof.
  induction cats as [|cat cats IH]; intros idx acc Hlen.
  - simpl. now rewrite app_nil_r.
  - cbn [forEach_from]. rewrite emit_block.
    destruct cats as [|cat' cats'].
    + cbn [forEach_from map separated].
      replace (idx <? len - 1) with false
        by (symmetry; apply Z.ltb_ge; cbn [length] in Hlen; lia).
      now rewrite app_nil_r.
    + rewrite IH by (cbn [length] in *; lia).
      replace (idx <? len - 1) with true
        by (symmetry; apply Z.ltb_lt; cbn [length] in Hlen; lia).
      cbn [map separated]. now rewrite <- !app_assoc.
Qed.
End CategoryLoop.

Lemma generateReportText_run
    (firstName lastName propertyAddress : jsstring) (analysis : Analysis) (w : World) :
  generateReportText firstName lastName propertyAddress analysis w
  = (Return (report_text firstName lastName propertyAddress
                         (repair_categories analysis) (clock w)), w).
Proof.
  unfold generateReportText, bind, new_Date, ret, forEach.
  cbv beta iota.
  rewrite (forEach_from_blocks (Z.of_nat (length (repair_categories analysis))))
    by lia.
  rewrite !reduce_total.
  unfold report_text, report_header, totals_section, copyright_line, total.
  repeat rewrite <- app_assoc. reflexivity.
Qed.

(* ================================================================== *)
(** ** Symbolic runs of the handler *)

Ltac unfold_handler :=
  unfold process_report, try_catch, bind, lift, ret, throw,
    anthropic_messages_create, db_run_insert,
    sendClientEmail, sendAdminEmail, sendGreenMantisEmail,
    transporter_sendMail, console_error.

Ltac world_fields :=
  cbn [clock reports submitted outbox console unhandled
       set_reports set_submitted set_outbox set_console set_unhandled
       fst snd].

Lemma inserted_row_stored_record env (b : Body) (analysis : Analysis)
    (table : list Row) (now : Date) :
  inserted_row table now
    [c_first_name; c_last_name; c_email; c_phone; c_property_address;
     c_report_data; c_termites_mentioned; c_pests_mentioned; c_rot_mentioned]
    [SqlText (firstName b); SqlText (lastName b); SqlText (body_email b);
     SqlText (body_phone b); SqlText (propertyAddress b);
     SqlText (JSON_stringify env analysis);
     sql_bool (termites_mentioned analysis);
     sql_bool (pests_mentioned analysis);
     sql_bool (rot_mentioned analysis)]
  = stored_record env b analysis table now.
Proof. reflexivity. Qed.

Lemma process_report_analysis_fails env req w e :
  analysis_step env req = Throw e ->
  process_report env req w
  = (Return (failure_response e),
     mkWorld (clock w) (reports w)
             (submitted w ++ analyzer_calls env req)
             (outbox w) (console w ++ [e]) (unhandled w)).
Proof.
  unfold analysis_step, analyzer_calls, extraction_step.
  intros H. unfold_handler.
  destruct (file req) as [f|].
  - destruct (pdfParse env (buffer f)) as [pdfText|e0].
    + fold (inference_request pdfText).
      destruct (messages_create env (inference_request pdfText)) as [msg|e1].
      * destruct (message_content msg) as [|block rest].
        -- injection H as <-. world_fields. reflexivity.
        -- rewrite H. world_fields. reflexivity.
      * injection H as <-. world_fields. reflexivity.
    + injection H as <-. world_fields. now rewrite app_nil_r.
  - injection H as <-. world_fields. now rewrite app_nil_r.
Qed.

Lemma process_report_analysis_succeeds env req w analysis :
  analysis_step env req = Return analysis ->
  let reportText :=
    report_text (firstName (body req)) (lastName (body req))
                (propertyAddress (body req)) (repair_categories analysis) (clock w) in
  let row := stored_record env (body req) analysis (reports w) (clock w) in
  let sends :=
    deliver env (outbox w) (notifications env (body req) analysis reportText) in
  process_report env req w
  = (Return (match snd sends with
             | None => success_response reportText
             | Some e => failure_response e
             end),
     mkWorld (clock w)
             (if insert_lands env (reports w) row
              then reports w ++ [row] else reports w)
             (submitted w ++ analyzer_calls env req)
             (outbox w ++ fst sends)
             (console w ++ match snd sends with
                           | None => []
                           | Some e => [e]
                           end)
             (if insert_lands env (reports w) row
              then unhandled w else unhandled w ++ [row])).
Proof.
  intros H reportText row sends. subst sends row reportText.
  unfold analysis_step, extraction_step in H.
  unfold analyzer_calls, extraction_step.
  unfold_handler.
  destruct (file req) as [f|]; [|discriminate].
  destruct (pdfParse env (buffer f)) as [pdfText|e0]; [|discriminate].
  fold (inference_request pdfText).
  destruct (messages_create env (inference_request pdfText)) as [msg|e1];
    [|discriminate].
  destruct (message_content msg) as [|block rest]; [discriminate|].
  rewrite H. cbv beta iota.
  rewrite generateReportText_run.
  rewrite inserted_row_stored_record.
  unfold notifications, client_dispatch, admin_dispatch, lead_dispatch.
  world_fields.
  destruct (insert_lands env (reports w) _);
    destruct (termites_mentioned analysis || pests_mentioned analysis);
    cbn [deliver mail]; world_fields;
    repeat (match goal with
            | |- context [sendMail_error env ?out ?m] =>
                destruct (sendMail_error env out m)
            end; cbn [deliver mail]; world_fields);
    rewrite <- ?app_assoc, ?app_nil_r; reflexivity.
Qed.

(* ================================================================== *)
(** ** Lists and strings *)

(** *** Strings *)

Lemma startsWith_app (s t p : jsstring) :
  startsWith s p = true -> startsWith (s ++ t) p = true.
Proof.
  revert s; induction p as [|b p IH]; intros s; [intros _; destruct (s ++ t); reflexivity|].
  destruct s as [|a s]; simpl; [discriminate|].
  intros H. apply andb_true_iff in H as [Hab Hrest].
  rewrite Hab. now apply IH.
Qed.

Lemma includes_app_l (s t p : jsstring) :
  includes s p = true -> includes (s ++ t) p = true.
Proof.
  induction s as [|a s IH]; simpl.
  - rewrite orb_false_r. intros H. destruct p; [|discriminate].
    destruct t; reflexivity.
  - intros H. apply orb_true_iff in H as [H|H].
    + apply (startsWith_app (a :: s) t) in H. simpl in H. now rewrite H.
    + rewrite (IH H). apply orb_true_r.
Qed.

Lemma includes_app_r (s t p : jsstring) :
  includes t p = true -> includes (s ++ t) p = true.
Proof.
  intros H. induction s as [|a s IH]; simpl; [exact H|].
  rewrite IH. apply orb_true_r.
Qed.

Lemma substring_from_0 (s : jsstring) (n : Z) :
  0 <= n -> substring s 0 n = firstn (Z.to_nat n) s.
Proof.
  intros Hn. unfold substring, clamp.
  set (len := Z.of_nat (length s)).
  assert (0 <= len) by (unfold len; lia).
  replace (Z.min (Z.max 0 0) len) with 0 by lia.
  replace (Z.min 0 (Z.min (Z.max n 0) len)) with 0 by lia.
  replace (Z.max 0 (Z.min (Z.max n 0) len)) with (Z.min n len) by lia.
  rewrite Z.sub_0_r. cbn [Z.to_nat skipn].
  destruct (Z.le_gt_cases n len) as [Hle|Hgt].
  - now rewrite Z.min_l.
  - rewrite Z.min_r by lia. unfold len. rewrite Nat2Z.id.
    rewrite firstn_all. symmetry. apply firstn_all2. lia.
Qed.

Lemma dispatched_app (w w' : World) (ds : list Dispatch) :
  outbox w' = outbox w ++ ds -> dispatched w w' = ds.
Proof.
  unfold dispatched. intros ->.
  rewrite skipn_app, skipn_all, Nat.sub_diag. reflexivity.
Qed.

(** *** Runs of the handler, by what they leave behind *)

Lemma deliver_notifications env out (b : Body) (analysis : Analysis)
    (reportText : jsstring) :
  deliver env out (notifications env b analysis reportText)
  = match sendMail_error env out (mail (client_dispatch env b reportText)) with
    | Some e => ([client_dispatch env b reportText], Some e)
    | None =>
        match sendMail_error env (out ++ [client_dispatch env b reportText])
                             (mail (admin_dispatch env b analysis)) with
        | Some e =>
            ([client_dispatch env b reportText; admin_dispatch env b analysis],
             Some e)
        | None =>
            if termites_mentioned analysis || pests_mentioned analysis
            then
              ([client_dispatch env b reportText; admin_dispatch env b analysis;
                lead_dispatch env b analysis],
               sendMail_error env
                 ((out ++ [client_dispatch env b reportText])
                      ++ [admin_dispatch env b analysis])
                 (mail (lead_dispatch env b analysis)))
            else
              ([client_dispatch env b reportText; admin_dispatch env b analysis],
               None)
        end
    end.
Proof.
  unfold notifications. cbn [deliver].
  destruct (sendMail_error env out _); [reflexivity|].
  destruct (sendMail_error env (out ++ _) _); [reflexivity|].
  destruct (termites_mentioned analysis || pests_mentioned analysis);
    cbn [deliver]; [|reflexivity].
  destruct (sendMail_error env _ _); reflexivity.
Qed.

Lemma run_response env req w analysis :
  analysis_step env req = Return analysis ->
  fst (process_report env req w)
  = Return
      match snd (deliver env (outbox w)
                   (notifications env (body req) analysis
                      (report_text (firstName (body req)) (lastName (body req))
                         (propertyAddress (body req))
                         (repair_categories analysis) (clock w)))) with
      | None => success_response
                  (report_text (firstName (body req)) (lastName (body req))
                     (propertyAddress (body req))
                     (repair_categories analysis) (clock w))
      | Some e => failure_response e
      end.
Proof.
  intros H. now rewrite (process_report_analysis_succeeds env req w analysis H).
Qed.

Lemma run_dispatched env req w analysis :
  analysis_step env req = Return analysis ->
  dispatched w (snd (process_report env req w))
  = fst (deliver env (outbox w)
           (notifications env (body req) analysis
              (report_text (firstName (body req)) (lastName (body req))
                 (propertyAddress (body req))
                 (repair_categories analysis) (clock w)))).
Proof.
  intros H. apply dispatched_app.
  now rewrite (process_report_analysis_succeeds env req w analysis H).
Qed.

Lemma run_reports env req w analysis :
  analysis_step env req = Return analysis ->
  reports (snd (process_report env req w))
  = if insert_lands env (reports w)
         (stored_record env (body req) analysis (reports w) (clock w))
    then reports w
         ++ [stored_record env (body req) analysis (reports w) (clock w)]
    else reports w.
Proof.
  intros H. now rewrite (process_report_analysis_succeeds env req w analysis H).
Qed.

Lemma run_unhandled env req w analysis :
  analysis_step env req = Return analysis ->
  unhandled (snd (process_report env req w))
  = if insert_lands env (reports w)
         (stored_record env (body req) analysis (reports w) (clock w))
    then unhandled w
    else unhandled w
         ++ [stored_record env (body req) analysis (reports w) (clock w)].
Proof.
  intros H. now rewrite (process_report_analysis_succeeds env req w analysis H).
Qed.

Lemma run_submitted env req w :
  submitted (snd (process_report env req w))
  = submitted w ++ analyzer_calls env req.
Proof.
  destruct (analysis_step env req) as [analysis|e] eqn:H.
  - now rewrite (process_report_analysis_succeeds env req w analysis H).
  - now rewrite (process_report_analysis_fails env req w e H).
Qed.

Ltac count_senders :=
  cbn [sent_by filter sender client_dispatch admin_dispatch lead_dispatch
       Sender_eqb length fst snd].

(* ================================================================== *)
(** ** Sums of safe integers are exact *)

Lemma shiftl_nat_value (p : positive) (k : nat) :
  Zpos (Pos.shiftl_nat p k) = Zpos p * 2 ^ Z.of_nat k.
Proof.
  induction k as [|k IH]; [cbn; lia|].
  change (Pos.shiftl_nat p (S k)) with (xO (Pos.shiftl_nat p k)).
  rewrite Pos2Z.inj_xO, IH, Nat2Z.inj_succ, Z.pow_succ_r by lia. lia.
Qed.

Lemma odd_part_shiftl_nat (k : nat) :
  forall (p : positive) (e : Z),
    odd_part (Pos.shiftl_nat p k) e = odd_part p (e + Z.of_nat k).
Proof.
  induction k as [|k IH]; intros p e.
  - cbn [Pos.shiftl_nat nat_rect Z.of_nat]. now rewrite Z.add_0_r.
  - change (Pos.shiftl_nat p (S k)) with (xO (Pos.shiftl_nat p k)).
    cbn [odd_part]. rewrite IH. f_equal. lia.
Qed.

Lemma odd_part_of_product (p c : positive) (e : Z) :
  0 <= e -> Zpos c = Zpos p * 2 ^ e -> odd_part c 0 = odd_part p e.
Proof.
  intros He Hc.
  assert (c = Pos.shiftl_nat p (Z.to_nat e)) as ->.
  { apply Pos2Z.inj. rewrite shiftl_nat_value, Z2Nat.id by exact He. exact Hc. }
  rewrite odd_part_shiftl_nat, Z2Nat.id by exact He. reflexivity.
Qed.

Lemma odd_part_value (m : positive) :
  forall e : Z,
    Zpos m = Zpos (fst (odd_part m e)) * 2 ^ (snd (odd_part m e) - e)
    /\ e <= snd (odd_part m e).
Proof.
  induction m as [m IH|m IH|]; intros e; cbn [odd_part fst snd];
    try (rewrite Z.sub_diag; split; lia).
  destruct (IH (e + 1)) as [Hval Hle]. split; [|lia].
  rewrite Pos2Z.inj_xO, Hval.
  replace (snd (odd_part m (e + 1)) - e) with (Z.succ (snd (odd_part m (e + 1)) - (e + 1)))
    by lia.
  rewrite Z.pow_succ_r by lia. lia.
Qed.

(** Rounding leaves a value alone when its floor logarithm is below 53
    and its exponent is not negative. *)
Lemma round_dyadic_exact (negative : bool) (p : positive) (e : Z) :
  0 <= e -> Zpos p * 2 ^ e < 2 ^ 53 ->
  round_dyadic negative p e = finite negative p e.
Proof.
  intros He Hlt. unfold round_dyadic.
  assert (HL : Z.log2 (Zpos p) + e < 53).
  { rewrite Z.add_comm, <- Z.log2_mul_pow2 by lia.
    apply Z.log2_lt_pow2; lia. }
  unfold MAX_EXPONENT, ulp_exponent, PRECISION, MIN_EXPONENT.
  destruct (Z.leb_spec 1024 (Z.log2 (Zpos p) + e)); [lia|].
  destruct (Z.leb_spec (Z.max (Z.log2 (Zpos p) + e - (53 - 1)) (-1074)) e);
    [reflexivity | lia].
Qed.

Lemma number_of_Z_pos (p : positive) :
  Zpos p < 2 ^ 53 -> number_of_Z (Zpos p) = finite false p 0.
Proof.
  intros H. cbn [number_of_Z]. apply round_dyadic_exact; lia.
Qed.

Lemma number_of_Z_neg (p : positive) :
  Zpos p < 2 ^ 53 -> number_of_Z (Zneg p) = finite true p 0.
Proof.
  intros H. cbn [number_of_Z]. apply round_dyadic_exact; lia.
Qed.

(** A safe integer, as the number that holds it. *)
Lemma number_of_Z_safe (z : Z) :
  safe_integer z ->
  number_of_Z z
  = match z with
    | Z0 => Zero false
    | Zpos p => Dyadic false (fst (odd_part p 0)) (snd (odd_part p 0))
    | Zneg p => Dyadic true (fst (odd_part p 0)) (snd (odd_part p 0))
    end.
Proof.
  unfold safe_integer. destruct z as [|p|p]; intros H; [reflexivity| |].
  - rewrite number_of_Z_pos by lia. unfold finite.
    now destruct (odd_part p 0).
  - rewrite number_of_Z_neg by lia. unfold finite.
    now destruct (odd_part p 0).
Qed.

(** The exact sum of two dyadic values with non-negative exponents whose
    result is a safe integer. *)
Lemma round_sum_exact (v e c : Z) :
  0 <= e -> c = v * 2 ^ e -> safe_integer c ->
  match v with
  | Z0 => Zero false
  | Zpos p => round_dyadic false p e
  | Zneg p => round_dyadic true p e
  end = number_of_Z c.
Proof.
  unfold safe_integer. intros He Hc Hsafe.
  assert (Hpow : 0 < 2 ^ e) by (apply Z.pow_pos_nonneg; lia).
  destruct v as [|p|p].
  - subst c. reflexivity.
  - assert (Hpos : 0 < c) by nia.
    destruct c as [|pc|pc]; try lia.
    rewrite round_dyadic_exact, number_of_Z_pos by lia.
    unfold finite. now rewrite (odd_part_of_product p pc e He Hc).
  - assert (Hneg : c < 0) by nia.
    destruct c as [|pc|pc]; try lia.
    assert (Hc' : Zpos pc = Zpos p * 2 ^ e) by lia.
    rewrite round_dyadic_exact, number_of_Z_neg by lia.
    unfold finite. now rewrite (odd_part_of_product p pc e He Hc').
Qed.

Lemma number_add_exact (a b : Z) :
  safe_integer a -> safe_integer b -> safe_integer (a + b) ->
  number_add (number_of_Z a) (number_of_Z b) = number_of_Z (a + b).
Proof.
  intros Ha Hb Hab.
  rewrite (number_of_Z_safe a Ha), (number_of_Z_safe b Hb).
  destruct a as [|pa|pa], b as [|pb|pb];
    try reflexivity;
    try (cbn [number_add Z.add]; symmetry;
         first [ apply (number_of_Z_safe (Zpos _)) | apply (number_of_Z_safe (Zneg _)) ];
         assumption).
  all: cbn [number_add];
    destruct (odd_part_value pa 0) as [Hva Hea];
    destruct (odd_part_value pb 0) as [Hvb Heb];
    rewrite Z.sub_0_r in Hva, Hvb;
    set (ma := fst (odd_part pa 0)) in *; set (ea := snd (odd_part pa 0)) in *;
    set (mb := fst (odd_part pb 0)) in *; set (eb := snd (odd_part pb 0)) in *;
    apply round_sum_exact; [lia | | exact Hab].
  all: assert (Hsplit_a : 2 ^ ea = 2 ^ (ea - Z.min ea eb) * 2 ^ Z.min ea eb)
         by (rewrite <- Z.pow_add_r by lia; f_equal; lia);
       assert (Hsplit_b : 2 ^ eb = 2 ^ (eb - Z.min ea eb) * 2 ^ Z.min ea eb)
         by (rewrite <- Z.pow_add_r by lia; f_equal; lia);
       rewrite Hsplit_a in Hva; rewrite Hsplit_b in Hvb;
       unfold signed;
       try change (Z.neg pa) with (- Z.pos pa);
       try change (Z.neg pb) with (- Z.pos pb);
       rewrite Hva, Hvb; ring.
Qed.

Lemma fold_number_add_exact (amounts : list Z) :
  forall acc : Z,
    safe_integer acc -> safe_sums acc amounts ->
    fold_left number_add (map number_of_Z amounts) (number_of_Z acc)
    = number_of_Z (acc + exact_total amounts).
Proof.
  induction amounts as [|x amounts IH]; intros acc Hacc Hsafe.
  - cbn [map fold_left exact_total]. now rewrite Z.add_0_r.
  - destruct Hsafe as (Hx & Hsum & Hrest).
    cbn [map fold_left exact_total].
    rewrite number_add_exact by assumption.
    rewrite IH by assumption. f_equal. lia.
Qed.

Lemma total_exact (amounts : list Z) :
  safe_sums 0 amounts ->
  total (map number_of_Z amounts) = number_of_Z (exact_total amounts).
Proof.
  intros Hsafe. unfold total.
  rewrite fold_number_add_exact; [reflexivity | unfold safe_integer; cbn; lia | exact Hsafe].
Qed.

(** *** The arithmetic of numbers at some familiar values *)

(** 0.1 + 0.2 is 0.30000000000000004. *)
Lemma tenth_plus_fifth :
  number_add (Dyadic false 3602879701896397 (-55))
             (Dyadic false 3602879701896397 (-54))
  = Dyadic false 1351079888211149 (-52).
Proof. vm_compute. reflexivity. Qed.

(** 2^53 + 1 is a tie between 2^53 and 2^53 + 2 and goes to the even
    mantissa, 2^53; 2^53 + 3 goes to 2^53 + 4. *)
Lemma ties_go_to_even :
  number_add (number_of_Z (2 ^ 53)) (number_of_Z 1) = number_of_Z (2 ^ 53)
  /\ number_add (number_of_Z (2 ^ 53)) (number_of_Z 3) = number_of_Z (2 ^ 53 + 4).
Proof. split; vm_compute; reflexivity. Qed.

(** Renderings of 1200, -1234567, 1234.5678, 1.1, 1.0005, 2^64 and -0:
    grouping, at most three fraction digits, halves of the shortest
    decimal rounded away from zero, digits beyond the shortest decimal
    shown as zeros. *)
Lemma toLocaleString_samples :
  toLocaleString (number_of_Z 1200) = lit "1,200"
  /\ toLocaleString (number_of_Z (-1234567)) = lit "-1,234,567"
  /\ toLocaleString (Dyadic false 5429686605511341 (-42)) = lit "1,234.568"
  /\ toLocaleString (Dyadic false 2476979795053773 (-51)) = lit "1.1"
  /\ toLocaleString (Dyadic false 4505851427184181 (-52)) = lit "1.001"
  /\ toLocaleString (number_of_Z (2 ^ 64)) = lit "18,446,744,073,709,552,000"
  /\ toLocaleString (Zero true) = lit "-0".
Proof. repeat split; vm_compute; reflexivity. Qed.

(* ================================================================== *)
(** ** The report formatter *)

(** C1 as stated fails: the totals are sums of numbers, each addition
    rounded to the nearest number.  For handyman costs 2^53, 1 and 1 (all
    of them numbers, as is their sum 2^53 + 2, which reads
    9,007,199,254,740,994) the report shows 9,007,199,254,740,992. *)
Lemma handyman_total_rounds_beyond_safe_integers :
  exists report,
    generateReportText (lit "Jane") (lit "Doe") (lit "123 Main St")
                       costly_estimate quiet_world
    = (Return report, quiet_world)
    /\ map handyman_cost (repair_categories costly_estimate)
       = map number_of_Z [2 ^ 53; 1; 1]
    /\ toLocaleString (number_of_Z (exact_total [2 ^ 53; 1; 1]))
       = lit "9,007,199,254,740,994"
    /\ includes report (lit "Handyman Total:   $9,007,199,254,740,994") = false
    /\ includes report (lit "Handyman Total:   $9,007,199,254,740,992") = true.
Proof.
  eexists. split; [apply generateReportText_run|].
  split; [reflexivity|].
  split; [vm_compute; reflexivity|].
  split; vm_compute; reflexivity.
Qed.

(** C1, amended. For an estimate with N categories the report is the
    header, then exactly N category blocks in input order with a separator
    between consecutive blocks and none after the last, then the totals
    section, whose two lines carry the handyman costs and the contractor
    costs added up in order from 0 in the arithmetic of numbers (each sum
    rounded to the nearest number); the call returns and leaves the world
    as it was.  When the costs are integers and every cost and partial sum
    is a safe integer (below 2^53 in magnitude), each total is the exact
    sum.  For the empty list no block is rendered and both totals are 0. *)
Theorem generateReportText_blocks_and_totals
    (firstName lastName propertyAddress : jsstring) (analysis : Analysis) (w : World) :
  let categories := repair_categories analysis in
  let blocks := map category_block categories in
  length blocks = length categories
  /\ generateReportText firstName lastName propertyAddress analysis w
     = (Return (report_header firstName lastName propertyAddress (clock w)
                ++ separated SEPARATOR blocks
                ++ totals_section (total (map handyman_cost categories))
                                  (total (map contractor_cost categories))
                ++ copyright_line (clock w)), w)
  /\ (forall handyman : list Z,
        map handyman_cost categories = map number_of_Z handyman ->
        safe_sums 0 handyman ->
        total (map handyman_cost categories) = number_of_Z (exact_total handyman))
  /\ (forall contractor : list Z,
        map contractor_cost categories = map number_of_Z contractor ->
        safe_sums 0 contractor ->
        total (map contractor_cost categories)
        = number_of_Z (exact_total contractor))
  /\ (forall termites pests rot,
        generateReportText firstName lastName propertyAddress
                           (mkAnalysis [] termites pests rot) w
        = (Return (report_header firstName lastName propertyAddress (clock w)
                   ++ totals_section (number_of_Z 0) (number_of_Z 0)
                   ++ copyright_line (clock w)), w)).
Proof.
  intros categories blocks. subst blocks categories.
  split; [apply length_map|]. split.
  { rewrite generateReportText_run. unfold report_text. reflexivity. }
  split; [intros handyman -> Hsafe; now apply total_exact|].
  split; [intros contractor -> Hsafe; now apply total_exact|].
  intros termites pests rot. rewrite generateReportText_run.
  unfold report_text. cbn [repair_categories map separated].
  rewrite app_nil_l. reflexivity.
Qed.

Lemma generateReportText_blocks_and_totals_witness :
  safe_sums 0 [500; 1500]
  /\ total (map handyman_cost
               (repair_categories
                  (mkAnalysis [roof_repair; foundation_work 1500] false false false)))
     = number_of_Z 2000.
Proof.
  assert (Hsafe : safe_sums 0 [500; 1500])
    by (unfold safe_sums, safe_integer; cbn; lia).
  split; [exact Hsafe|].
  destruct (generateReportText_blocks_and_totals
              (lit "Jane") (lit "Doe") (lit "123 Main St")
              (mkAnalysis [roof_repair; foundation_work 1500] false false false)
              quiet_world) as (_ & _ & Hexact & _).
  exact (Hexact [500; 1500] eq_refl Hsafe).
Defined.

(** C2. [generateReportText] is deterministic: two calls with identical
    first name, last name, property address and estimate, made under the
    same current date, both return, and return the same string, whatever
    else the two worlds hold. *)
Theorem generateReportText_deterministic
    (firstName1 lastName1 propertyAddress1 : jsstring) (analysis1 : Analysis)
    (firstName2 lastName2 propertyAddress2 : jsstring) (analysis2 : Analysis)
    (w1 w2 : World) :
  firstName1 = firstName2 ->
  lastName1 = lastName2 ->
  propertyAddress1 = propertyAddress2 ->
  analysis1 = analysis2 ->
  clock w1 = clock w2 ->
  exists report,
    generateReportText firstName1 lastName1 propertyAddress1 analysis1 w1
    = (Return report, w1)
    /\ generateReportText firstName2 lastName2 propertyAddress2 analysis2 w2
       = (Return report, w2).
Proof.
  intros -> -> -> -> Hclock.
  eexists. rewrite !generateReportText_run, Hclock. split; reflexivity.
Qed.

Lemma generateReportText_deterministic_witness :
  exists report,
    generateReportText (lit "Jane") (lit "Doe") (lit "123 Main St")
                       (roof_estimate false true false) quiet_world
    = (Return report, quiet_world)
    /\ generateReportText (lit "Jane") (lit "Doe") (lit "123 Main St")
                          (roof_estimate false true false) busy_world
       = (Return report, busy_world).
Proof.
  exact (generateReportText_deterministic
           (lit "Jane") (lit "Doe") (lit "123 Main St") (roof_estimate false true false)
           (lit "Jane") (lit "Doe") (lit "123 Main St") (roof_estimate false true false)
           quiet_world busy_world
           eq_refl eq_refl eq_refl eq_refl eq_refl).
Defined.

(** C10. The report does not depend on the submitter's email or phone nor
    on the three flags of the estimate: two submissions that agree on first
    name, last name and property address, with estimates that agree on the
    category list, under the same current date, get the same report from
    the call the handler makes. *)
Theorem report_ignores_contact_and_flags
    (b1 b2 : Body) (analysis1 analysis2 : Analysis) (w1 w2 : World) :
  firstName b1 = firstName b2 ->
  lastName b1 = lastName b2 ->
  propertyAddress b1 = propertyAddress b2 ->
  repair_categories analysis1 = repair_categories analysis2 ->
  clock w1 = clock w2 ->
  fst (generateReportText (firstName b1) (lastName b1) (propertyAddress b1)
                          analysis1 w1)
  = fst (generateReportText (firstName b2) (lastName b2) (propertyAddress b2)
                            analysis2 w2).
Proof.
  intros Hf Hl Ha Hc Hclock.
  rewrite !generateReportText_run. cbn [fst].
  now rewrite Hf, Hl, Ha, Hc, Hclock.
Qed.

Lemma report_ignores_contact_and_flags_witness :
  body_email jane <> body_email second_contact
  /\ body_phone jane <> body_phone second_contact
  /\ fst (generateReportText (firstName jane) (lastName jane) (propertyAddress jane)
                             (roof_estimate false false false) quiet_world)
     = fst (generateReportText (firstName second_contact)
                               (lastName second_contact)
                               (propertyAddress second_contact)
                               (roof_estimate true true true) busy_world).
Proof.
  split; [intros H; vm_compute in H; discriminate H|].
  split; [intros H; vm_compute in H; discriminate H|].
  apply (report_ignores_contact_and_flags
           jane second_contact
           (roof_estimate false false false) (roof_estimate true true true)
           quiet_world busy_world); reflexivity.
Defined.

(** The report of the end-to-end example, whatever the date and flags. *)
Lemma jane_report (termites pests rot : bool) (w : World) :
  generateReportText (lit "Jane") (lit "Doe") (lit "123 Main St")
                     (roof_estimate termites pests rot) w
  = (Return (report_header (lit "Jane") (lit "Doe") (lit "123 Main St") (clock w)
             ++ category_block roof_repair
             ++ totals_section (number_of_Z 500) (number_of_Z 1200)
             ++ copyright_line (clock w)), w).
Proof.
  rewrite generateReportText_run. unfold report_text, roof_estimate.
  cbn [repair_categories map separated handyman_cost contractor_cost roof_repair].
  replace (total [number_of_Z 500]) with (number_of_Z 500)
    by (vm_compute; reflexivity).
  replace (total [number_of_Z 1200]) with (number_of_Z 1200)
    by (vm_compute; reflexivity).
  reflexivity.
Qed.

(** C3 as stated fails: the handyman total line pads its label to the
    width of the contractor label, so the text with a single space after
    the colon does not occur in the report. *)
Lemma jane_report_lacks_unpadded_handyman_total :
  exists report,
    generateReportText (lit "Jane") (lit "Doe") (lit "123 Main St")
                       (roof_estimate false false false) quiet_world
    = (Return report, quiet_world)
    /\ includes report (lit "Handyman Total: $500") = false.
Proof. eexists. split; [apply jane_report|]. vm_compute. reflexivity. Qed.

(** C3, amended. For the identity Jane Doe, 123 Main St and the single
    category Roof Repair (500 / 1200, item 3.2 Missing shingles, trade
    Roofer) the report contains "Roof Repair", "$500", "$1,200",
    "Section 3.2 – Missing shingles", "Roofer", "Handyman Total:   $500"
    (label padded with three spaces) and "Contractor Total: $1,200". *)
Theorem jane_report_contents (termites pests rot : bool) (w : World) :
  exists report,
    generateReportText (lit "Jane") (lit "Doe") (lit "123 Main St")
                       (roof_estimate termites pests rot) w
    = (Return report, w)
    /\ includes report (lit "Roof Repair") = true
    /\ includes report (lit "$500") = true
    /\ includes report (lit "$1,200") = true
    /\ includes report (lit "Section 3.2 – Missing shingles") = true
    /\ includes report (lit "Roofer") = true
    /\ includes report (lit "Handyman Total:   $500") = true
    /\ includes report (lit "Contractor Total: $1,200") = true.
Proof.
  eexists. split; [apply jane_report|].
  assert (in_block : forall p,
             includes (category_block roof_repair) p = true ->
             includes (report_header (lit "Jane") (lit "Doe") (lit "123 Main St")
                                     (clock w)
                       ++ category_block roof_repair
                       ++ totals_section (number_of_Z 500) (number_of_Z 1200)
                       ++ copyright_line (clock w)) p = true).
  { intros p Hp. apply includes_app_r. now apply includes_app_l. }
  assert (in_totals : forall p,
             includes (totals_section (number_of_Z 500) (number_of_Z 1200)) p = true ->
             includes (report_header (lit "Jane") (lit "Doe") (lit "123 Main St")
                                     (clock w)
                       ++ category_block roof_repair
                       ++ totals_section (number_of_Z 500) (number_of_Z 1200)
                       ++ copyright_line (clock w)) p = true).
  { intros p Hp. do 2 apply includes_app_r. now apply includes_app_l. }
  repeat split;
    first [ apply in_block; vm_compute; reflexivity
          | apply in_totals; vm_compute; reflexivity ].
Qed.

(* ================================================================== *)
(** ** The process-report workflow *)

(** C4 as stated fails: a run reaches the notification stage with
    [termites_mentioned] set, the client send raises, and the lead mail is
    never dispatched. *)
Lemma lead_skipped_when_client_send_fails :
  analysis_step env_client_send_fails jane_request
  = Return (roof_estimate true false false)
  /\ sent_by ClientEmail
       (dispatched quiet_world
          (snd (process_report env_client_send_fails jane_request quiet_world)))
     = 1%nat
  /\ sent_by GreenMantisEmail
       (dispatched quiet_world
          (snd (process_report env_client_send_fails jane_request quiet_world)))
     = 0%nat.
Proof. repeat split; vm_compute; reflexivity. Qed.

(** C4, amended. In a run whose analysis step succeeded the lead mail is
    dispatched at most once and never when both [termites_mentioned] and
    [pests_mentioned] are false (whatever [rot_mentioned] is); when the
    client and admin sends are accepted it is dispatched exactly once if
    one of the two flags is true, and only then. *)
Theorem lead_dispatch_iff_pest_flags env req w analysis :
  analysis_step env req = Return analysis ->
  let reportText :=
    report_text (firstName (body req)) (lastName (body req))
                (propertyAddress (body req)) (repair_categories analysis) (clock w) in
  let client := client_dispatch env (body req) reportText in
  let admin := admin_dispatch env (body req) analysis in
  let leads :=
    sent_by GreenMantisEmail (dispatched w (snd (process_report env req w))) in
  (termites_mentioned analysis = false -> pests_mentioned analysis = false ->
   leads = 0%nat)
  /\ (leads <= 1)%nat
  /\ (sendMail_error env (outbox w) (mail client) = None ->
      sendMail_error env (outbox w ++ [client]) (mail admin) = None ->
      (leads = 1%nat
       <-> termites_mentioned analysis = true \/ pests_mentioned analysis = true)).
Proof.
  intros H reportText client admin leads. subst leads.
  rewrite (run_dispatched env req w analysis H), deliver_notifications.
  fold reportText. fold client. fold admin.
  destruct (sendMail_error env (outbox w) (mail client)) as [e|].
  { subst client. count_senders. intuition (try lia; try congruence). }
  destruct (sendMail_error env (outbox w ++ [client]) (mail admin)) as [e|].
  { subst client admin. count_senders. intuition (try lia; try congruence). }
  destruct (termites_mentioned analysis) eqn:Ht;
    destruct (pests_mentioned analysis) eqn:Hp;
    subst client admin; cbn [orb]; count_senders;
    intuition (try lia; try congruence).
Qed.

Lemma lead_dispatch_iff_pest_flags_witness :
  analysis_step env_pests_reported jane_request = Return (roof_estimate false true false)
  /\ sent_by GreenMantisEmail
       (dispatched quiet_world
          (snd (process_report env_pests_reported jane_request quiet_world)))
     = 1%nat.
Proof.
  assert (H : analysis_step env_pests_reported jane_request
              = Return (roof_estimate false true false))
    by (vm_compute; reflexivity).
  split; [exact H|].
  destruct (lead_dispatch_iff_pest_flags
              env_pests_reported jane_request quiet_world
              (roof_estimate false true false) H) as (_ & _ & Hiff).
  apply Hiff; [reflexivity | reflexivity | right; reflexivity].
Defined.

(** C5. When the analyzer's answer does not parse, the request is answered
    with HTTP 500 and the parser's message, the response carries no report,
    no mail (hence no report attachment) is dispatched and the [reports]
    table is as it was before the request. *)
Theorem unparseable_analysis_fails_cleanly
    env req w pdfText msg block rest e :
  extraction_step env req = Return pdfText ->
  messages_create env (inference_request pdfText) = Return msg ->
  message_content msg = block :: rest ->
  JSON_parse env (text block) = Throw e ->
  fst (process_report env req w)
  = Return {| status := 500; json := ErrorJson (message e) |}
  /\ reports (snd (process_report env req w)) = reports w
  /\ outbox (snd (process_report env req w)) = outbox w.
Proof.
  intros Hx Hm Hc Hp.
  assert (H : analysis_step env req = Throw e).
  { unfold analysis_step. now rewrite Hx, Hm, Hc. }
  rewrite (process_report_analysis_fails env req w e H).
  repeat split.
Qed.

Lemma unparseable_analysis_fails_cleanly_witness :
  JSON_parse env_unparseable (lit "{ }") = Throw unexpected_end
  /\ fst (process_report env_unparseable jane_request busy_world)
     = Return {| status := 500; json := ErrorJson (message unexpected_end) |}
  /\ reports (snd (process_report env_unparseable jane_request busy_world))
     = reports busy_world
  /\ outbox (snd (process_report env_unparseable jane_request busy_world))
     = outbox busy_world.
Proof.
  split; [reflexivity|].
  apply (unparseable_analysis_fails_cleanly
           env_unparseable jane_request busy_world
           roof_finding_text
           (mkMessage [mkBlock (lit "{ }")]) (mkBlock (lit "{ }")) []
           unexpected_end); reflexivity.
Defined.

(** C6 as stated fails: the analysis succeeds, the INSERT succeeds, the
    admin send raises, and the caller gets the failure response, not
    [{ success: true, report }]. *)
Lemma notification_failure_is_reported_to_caller :
  analysis_step env_admin_send_fails jane_request
  = Return (roof_estimate true false false)
  /\ length (reports (snd (process_report env_admin_send_fails jane_request
                                          quiet_world))) = 1%nat
  /\ unhandled (snd (process_report env_admin_send_fails jane_request quiet_world))
     = []
  /\ fst (process_report env_admin_send_fails jane_request quiet_world)
     = Return {| status := 500; json := ErrorJson (message connection_timeout) |}.
Proof. repeat split; vm_compute; reflexivity. Qed.

(** C6, amended. After a successful analysis whose INSERT succeeds, the
    response follows the notification sends: when every send is accepted
    the caller gets [{ success: true, report }]; when a send raises, the
    caller gets HTTP 500 with that error's message. *)
Theorem response_after_analysis env req w analysis :
  analysis_step env req = Return analysis ->
  insert_lands env (reports w)
    (stored_record env (body req) analysis (reports w) (clock w)) = true ->
  let reportText :=
    report_text (firstName (body req)) (lastName (body req))
                (propertyAddress (body req)) (repair_categories analysis) (clock w) in
  let sends := deliver env (outbox w)
                       (notifications env (body req) analysis reportText) in
  (snd sends = None ->
   fst (process_report env req w)
   = Return {| status := 200; json := SuccessJson reportText |})
  /\ (forall e, snd sends = Some e ->
      fst (process_report env req w)
      = Return {| status := 500; json := ErrorJson (message e) |}).
Proof.
  intros H Hlands reportText sends. subst sends reportText.
  rewrite (run_response env req w analysis H).
  split; [now intros ->|]. now intros e ->.
Qed.

Lemma response_after_analysis_witness :
  analysis_step env_all_up jane_request = Return (roof_estimate false false false)
  /\ insert_lands env_all_up (reports quiet_world)
       (stored_record env_all_up (body jane_request)
                      (roof_estimate false false false)
                      (reports quiet_world) (clock quiet_world)) = true
  /\ fst (process_report env_all_up jane_request quiet_world)
     = Return {| status := 200;
                 json := SuccessJson
                           (report_text (lit "Jane") (lit "Doe") (lit "123 Main St")
                                        [roof_repair] inspection_day) |}.
Proof.
  assert (H : analysis_step env_all_up jane_request
              = Return (roof_estimate false false false))
    by (vm_compute; reflexivity).
  split; [exact H|]. split; [reflexivity|].
  destruct (response_after_analysis
              env_all_up jane_request quiet_world
              (roof_estimate false false false) H eq_refl) as (Hok & _).
  apply Hok. vm_compute. reflexivity.
Defined.

(** C7. Whatever text is extracted from the upload, the one request sent
    to the analyzer carries, after the fixed prompt, a prefix of that text
    of at most 40,000 code units: the whole text when it is no longer than
    that, its first 40,000 code units otherwise. *)
Theorem analyzer_receives_truncated_prefix env req w pdfText :
  extraction_step env req = Return pdfText ->
  exists sent_text,
    submitted (snd (process_report env req w))
    = submitted w
      ++ [ {| model := lit "claude-sonnet-4-20250514";
              max_tokens := 4000;
              messages := [ {| role := lit "user";
                               chat_content := PROMPT ++ sent_text |} ] |} ]
    /\ (exists dropped, pdfText = sent_text ++ dropped)
    /\ Z.of_nat (length sent_text) <= 40000
    /\ (Z.of_nat (length pdfText) <= 40000 -> sent_text = pdfText)
    /\ (40000 < Z.of_nat (length pdfText) -> Z.of_nat (length sent_text) = 40000).
Proof.
  intros Hx.
  exists (firstn (Z.to_nat MAX_INSPECTION_TEXT) pdfText).
  split.
  - rewrite run_submitted. unfold analyzer_calls. rewrite Hx.
    unfold inference_request.
    rewrite substring_from_0 by (unfold MAX_INSPECTION_TEXT; lia).
    reflexivity.
  - unfold MAX_INSPECTION_TEXT. repeat split.
    + exists (skipn (Z.to_nat 40000) pdfText). symmetry. apply firstn_skipn.
    + rewrite length_firstn. lia.
    + intros Hshort. apply firstn_all2. lia.
    + intros Hlong. rewrite length_firstn. lia.
Qed.

Lemma analyzer_receives_truncated_prefix_witness :
  extraction_step env_all_up jane_request = Return roof_finding_text
  /\ exists sent_text,
       submitted (snd (process_report env_all_up jane_request quiet_world))
       = submitted quiet_world
         ++ [ {| model := lit "claude-sonnet-4-20250514";
                 max_tokens := 4000;
                 messages := [ {| role := lit "user";
                                  chat_content := PROMPT ++ sent_text |} ] |} ]
       /\ sent_text = roof_finding_text.
Proof.
  split; [reflexivity|].
  destruct (analyzer_receives_truncated_prefix
              env_all_up jane_request quiet_world roof_finding_text eq_refl)
    as (sent_text & Hsub & _ & _ & Hshort & _).
  exists sent_text. split; [exact Hsub|].
  apply Hshort. vm_compute. discriminate.
Defined.

(** C8 as stated fails: the row written by a run has no payment reference
    and no payment amount; both columns are NULL. *)
Lemma stored_record_lacks_payment_metadata :
  exists row,
    reports (snd (process_report env_all_up jane_request quiet_world)) = [row]
    /\ payment_id row = SqlNull
    /\ payment_amount row = SqlNull.
Proof. eexists. repeat split. Qed.

(** C8, amended. Every row a run adds to [reports] holds the submitted
    first name, last name, email, phone and property address, the
    serialized estimate and the three flags of the estimate; the payment
    reference and the payment amount of the row are NULL. *)
Theorem stored_record_fields env req w row :
  In row (reports (snd (process_report env req w))) ->
  In row (reports w)
  \/ exists analysis,
       analysis_step env req = Return analysis
       /\ first_name row = SqlText (firstName (body req))
       /\ last_name row = SqlText (lastName (body req))
       /\ email row = SqlText (body_email (body req))
       /\ phone row = SqlText (body_phone (body req))
       /\ property_address row = SqlText (propertyAddress (body req))
       /\ report_data row = SqlText (JSON_stringify env analysis)
       /\ row_termites_mentioned row = sql_bool (termites_mentioned analysis)
       /\ row_pests_mentioned row = sql_bool (pests_mentioned analysis)
       /\ row_rot_mentioned row = sql_bool (rot_mentioned analysis)
       /\ payment_id row = SqlNull
       /\ payment_amount row = SqlNull.
Proof.
  destruct (analysis_step env req) as [analysis|e] eqn:H.
  - rewrite (run_reports env req w analysis H).
    destruct (insert_lands env (reports w) _); [|now left].
    intros Hin. apply in_app_or in Hin as [Hin|[<-|[]]]; [now left|].
    right. exists analysis. repeat split.
  - rewrite (process_report_analysis_fails env req w e H). now left.
Qed.

Lemma stored_record_fields_witness :
  exists row,
    In row (reports (snd (process_report env_all_up jane_request quiet_world)))
    /\ first_name row = SqlText (lit "Jane")
    /\ report_data row = SqlText (lit "{ }")
    /\ payment_id row = SqlNull.
Proof.
  exists (stored_record env_all_up jane (roof_estimate false false false)
                        [] inspection_day).
  assert (Hin : In (stored_record env_all_up jane (roof_estimate false false false)
                                  [] inspection_day)
                   (reports (snd (process_report env_all_up jane_request
                                                 quiet_world))))
    by (left; reflexivity).
  split; [exact Hin|].
  destruct (stored_record_fields env_all_up jane_request quiet_world _ Hin)
    as [[]|(analysis & _ & Hfirst & _ & _ & _ & _ & Hdata & _ & _ & _ & Hpay & _)].
  split; [exact Hfirst | split; [exact Hdata | exact Hpay]].
Defined.



(* ================================================================== *)
(** ** Decimal renderings *)

Lemma digits_rev_spec (fuel : nat) :
  forall n : N,
    (n < 2 ^ N.of_nat fuel)%N ->
    digits_value (digits_rev fuel n) = n
    /\ Forall (fun d => (d < 10)%N) (digits_rev fuel n)
    /\ (fuel <> O -> digits_rev fuel n <> []).
Proof.
  induction fuel as [|fuel IH]; intros n Hn.
  - cbn in *. repeat split; [lia | constructor | congruence].
  - cbn [digits_rev]. destruct (N.ltb_spec n 10) as [Hsmall|Hbig].
    + cbn [digits_value]. repeat split; [lia | | congruence].
      constructor; [exact Hsmall | constructor].
    + assert (Hdiv : (n / 10 < 2 ^ N.of_nat fuel)%N).
      { rewrite Nat2N.inj_succ, N.pow_succ_r' in Hn.
        apply N.Div0.div_lt_upper_bound. lia. }
      destruct (IH _ Hdiv) as (Hval & Hall & _).
      cbn [digits_value]. rewrite Hval. repeat split; [| | congruence].
      * pose proof (N.Div0.div_mod n 10). lia.
      * constructor; [apply N.mod_lt; lia | exact Hall].
Qed.

Lemma digit_fuel_enough (n : N) : (n < 2 ^ N.of_nat (digit_fuel n))%N.
Proof.
  unfold digit_fuel. rewrite Nat2N.inj_succ, N2Nat.id.
  destruct (N.eq_dec n 0) as [->|Hn]; [reflexivity|].
  apply N.log2_spec. lia.
Qed.

Lemma digits_of (n : N) :
  digits_value (digits_rev (digit_fuel n) n) = n
  /\ Forall (fun d => (d < 10)%N) (digits_rev (digit_fuel n) n)
  /\ digits_rev (digit_fuel n) n <> [].
Proof.
  destruct (digits_rev_spec (digit_fuel n) n (digit_fuel_enough n))
    as (Hval & Hall & Hne).
  repeat split; auto. apply Hne. unfold digit_fuel. congruence.
Qed.

Lemma digit_cases (d : N) :
  (d < 10)%N ->
  (d = 0 \/ d = 1 \/ d = 2 \/ d = 3 \/ d = 4 \/ d = 5 \/ d = 6 \/ d = 7
   \/ d = 8 \/ d = 9)%N.
Proof. lia. Qed.

Ltac each_digit H :=
  apply digit_cases in H;
  repeat (destruct H as [H|H]); subst.

Lemma digit_value_digit_char (d : N) :
  (d < 10)%N -> digit_value 10 (digit_char d) = Some d.
Proof. intros H. each_digit H; reflexivity. Qed.

Lemma digit_char_not_whitespace (d : N) :
  (d < 10)%N -> is_whitespace (digit_char d) = false.
Proof. intros H. each_digit H; reflexivity. Qed.

Lemma parse_digits_digits (ms : list N) (tl : jsstring) (acc : option N) :
  Forall (fun d => (d < 10)%N) ms ->
  parse_digits 10 (map digit_char ms ++ tl) acc
  = parse_digits 10 tl (fold_left read_step ms acc).
Proof.
  intros Hall. revert acc.
  induction Hall as [|d ms Hd Hall IH]; intros acc; [reflexivity|].
  cbn [map app parse_digits fold_left].
  rewrite (digit_value_digit_char d Hd). apply IH.
Qed.

Lemma read_digits_value (ds : list N) :
  ds <> [] -> fold_left read_step (rev ds) None = Some (digits_value ds).
Proof.
  intros Hne. rewrite <- fold_left_rev_right, rev_involutive.
  induction ds as [|d ds IH]; [congruence|].
  cbn [fold_right digits_value].
  destruct ds as [|d' ds'].
  - unfold read_step. cbn [fold_right digits_value]. f_equal. lia.
  - rewrite IH by congruence. unfold read_step. f_equal. lia.
Qed.

Lemma parse_digits_stops (tl : jsstring) (acc : option N) :
  match tl with
  | [] => True
  | c :: _ => is_decimal_digit c = false
  end ->
  parse_digits 10 tl acc = acc.
Proof.
  destruct tl as [|c tl]; [reflexivity|].
  unfold is_decimal_digit. cbn [parse_digits].
  destruct (digit_value 10 c); [discriminate|reflexivity].
Qed.

Lemma trimStart_digits (ms : list N) (tl : jsstring) :
  ms <> [] -> Forall (fun d => (d < 10)%N) ms ->
  trimStart (map digit_char ms ++ tl) = map digit_char ms ++ tl.
Proof.
  intros Hne Hall. destruct Hall as [|d ms Hd Hall]; [congruence|].
  cbn [map app trimStart]. now rewrite digit_char_not_whitespace.
Qed.

Lemma read_sign_digits (ms : list N) (tl : jsstring) :
  ms <> [] -> Forall (fun d => (d < 10)%N) ms ->
  read_sign (map digit_char ms ++ tl) = (1, map digit_char ms ++ tl).
Proof.
  intros Hne Hall. destruct Hall as [|d ms Hd Hall]; [congruence|].
  cbn [map app]. each_digit Hd; reflexivity.
Qed.

Lemma read_radix_digits (ms : list N) (tl : jsstring) :
  ms <> [] -> Forall (fun d => (d < 10)%N) ms -> ends_number tl ->
  read_radix (map digit_char ms ++ tl) = (10%N, map digit_char ms ++ tl).
Proof.
  intros Hne Hall Htl. destruct Hall as [|d ms Hd Hall]; [congruence|].
  cbn [map app]. each_digit Hd; try reflexivity.
  destruct Hall as [|d' ms' Hd' Hall'].
  - cbn [map app]. destruct tl as [|c tl]; [reflexivity|].
    destruct Htl as (_ & Hx & HX).
    unfold read_radix, digit_char.
    apply N.eqb_neq in Hx, HX. cbn [N.add]. now rewrite Hx, HX.
  - cbn [map app]. each_digit Hd'; reflexivity.
Qed.

Lemma parseInt_digits (ds : list N) (tl : jsstring) :
  ds <> [] -> Forall (fun d => (d < 10)%N) ds -> ends_number tl ->
  parseInt (map digit_char (rev ds) ++ tl) = number_of_Z (Z.of_N (digits_value ds)).
Proof.
  intros Hne Hall Htl.
  assert (Hne' : rev ds <> []).
  { intros Hr. apply Hne. now rewrite <- (rev_involutive ds), Hr. }
  assert (Hall' : Forall (fun d => (d < 10)%N) (rev ds)) by now apply Forall_rev.
  unfold parseInt.
  rewrite trimStart_digits, read_sign_digits, read_radix_digits by assumption.
  rewrite parse_digits_digits, read_digits_value by assumption.
  rewrite parse_digits_stops
    by (destruct tl; [exact I | apply Htl]).
  destruct (digits_value ds) as [|p]; reflexivity.
Qed.

Lemma parseInt_negative_digits (ds : list N) (tl : jsstring) :
  ds <> [] -> Forall (fun d => (d < 10)%N) ds -> ends_number tl ->
  digits_value ds <> 0%N ->
  parseInt (45%N :: map digit_char (rev ds) ++ tl)
  = number_of_Z (- Z.of_N (digits_value ds)).
Proof.
  intros Hne Hall Htl Hnz.
  assert (Hne' : rev ds <> []).
  { intros Hr. apply Hne. now rewrite <- (rev_involutive ds), Hr. }
  assert (Hall' : Forall (fun d => (d < 10)%N) (rev ds)) by now apply Forall_rev.
  unfold parseInt. cbn [trimStart].
  change (is_whitespace 45%N) with false. cbv iota. cbn [read_sign].
  rewrite read_radix_digits by assumption.
  rewrite parse_digits_digits, read_digits_value by assumption.
  rewrite parse_digits_stops
    by (destruct tl; [exact I | apply Htl]).
  destruct (digits_value ds) as [|p]; [congruence | reflexivity].
Qed.

(** The decimal rendering of an integer, followed by anything that is not
    a digit (nor an [x]), reads as the number nearest to that integer. *)
Lemma parseInt_toString_prefix (x : Z) (tl : jsstring) :
  ends_number tl -> parseInt (toString x ++ tl) = number_of_Z x.
Proof.
  intros Htl.
  destruct (digits_of (Z.abs_N x)) as (Hval & Hall & Hne).
  unfold toString, nat_toString. rewrite <- map_rev.
  destruct (Z.ltb_spec x 0) as [Hneg|Hpos].
  - cbn [app]. rewrite parseInt_negative_digits by (try assumption; lia).
    rewrite Hval. f_equal. lia.
  - rewrite parseInt_digits by assumption.
    rewrite Hval. f_equal. lia.
Qed.

(* ================================================================== *)
(** ** Further properties of the process-report workflow *)

Lemma deliver_all_accepted env (plan : list Dispatch) :
  forall out, snd (deliver env out plan) = None -> fst (deliver env out plan) = plan.
Proof.
  induction plan as [|d plan IH]; intros out; [reflexivity|].
  cbn [deliver]. destruct (sendMail_error env out (mail d)); [discriminate|].
  specialize (IH (out ++ [d])).
  destruct (deliver env (out ++ [d]) plan) as [ds r].
  cbn [fst snd] in *. intros Hr. now rewrite (IH Hr).
Qed.

(** X3. When no file was uploaded, or the PDF parser rejects the upload, the
    request is answered with HTTP 500 and nothing leaves the process: the
    analyzer is not called, no row is written and no mail is dispatched. *)
Theorem extraction_failure_reaches_nobody env req w e :
  extraction_step env req = Throw e ->
  fst (process_report env req w)
  = Return {| status := 500; json := ErrorJson (message e) |}
  /\ submitted (snd (process_report env req w)) = submitted w
  /\ reports (snd (process_report env req w)) = reports w
  /\ outbox (snd (process_report env req w)) = outbox w.
Proof.
  intros Hx.
  assert (H : analysis_step env req = Throw e)
    by (unfold analysis_step; now rewrite Hx).
  rewrite (process_report_analysis_fails env req w e H).
  unfold analyzer_calls. rewrite Hx. cbn [fst snd submitted reports outbox].
  repeat split. apply app_nil_r.
Qed.

Lemma extraction_failure_reaches_nobody_witness :
  file request_without_upload = None
  /\ (exists e,
         fst (process_report env_all_up request_without_upload busy_world)
         = Return {| status := 500; json := ErrorJson (message e) |})
  /\ submitted (snd (process_report env_all_up request_without_upload busy_world))
     = submitted busy_world.
Proof.
  split; [reflexivity|].
  destruct (extraction_failure_reaches_nobody
              env_all_up request_without_upload busy_world
              (reading_undefined "buffer") eq_refl) as (Hres & Hsub & _).
  split; [eexists; exact Hres | exact Hsub].
Defined.

(** X4. When the inference call rejects, or answers with an empty content
    array, the request is answered with HTTP 500; the one request to the
    analyzer has been made, but no row is written and no mail dispatched. *)
Theorem inference_failure_stops_the_run env req w pdfText e :
  extraction_step env req = Return pdfText ->
  messages_create env (inference_request pdfText) = Throw e
  \/ (messages_create env (inference_request pdfText) = Return (mkMessage [])
      /\ e = reading_undefined "text") ->
  fst (process_report env req w)
  = Return {| status := 500; json := ErrorJson (message e) |}
  /\ submitted (snd (process_report env req w))
     = submitted w ++ [inference_request pdfText]
  /\ reports (snd (process_report env req w)) = reports w
  /\ outbox (snd (process_report env req w)) = outbox w.
Proof.
  intros Hx Hm.
  assert (H : analysis_step env req = Throw e).
  { unfold analysis_step. rewrite Hx.
    destruct Hm as [->|[-> ->]]; reflexivity. }
  rewrite (process_report_analysis_fails env req w e H).
  unfold analyzer_calls. rewrite Hx. repeat split.
Qed.

Lemma inference_failure_stops_the_run_witness :
  messages_create env_empty_answer (inference_request roof_finding_text)
  = Return (mkMessage [])
  /\ fst (process_report env_empty_answer jane_request quiet_world)
     = Return {| status := 500;
                 json := ErrorJson (message (reading_undefined "text")) |}
  /\ reports (snd (process_report env_empty_answer jane_request quiet_world)) = [].
Proof.
  split; [reflexivity|].
  destruct (inference_failure_stops_the_run
              env_empty_answer jane_request quiet_world roof_finding_text
              (reading_undefined "text") eq_refl
              (or_intror (conj eq_refl eq_refl))) as (Hres & _ & Hrep & _).
  split; [exact Hres | exact Hrep].
Defined.

Lemma success_report_inj (r1 r2 : jsstring) :
  Return (success_response r1) = Return {| status := 200; json := SuccessJson r2 |} ->
  r1 = r2.
Proof. intros H. now injection H. Qed.

(** X5. A success response is a guarantee about the mails: when the caller
    gets [{ success: true, report }], the analysis had succeeded, the
    report is the one generated for it, and every intended notification
    (client, admin, and the lead when flagged) was dispatched, in order,
    and accepted by the transport. *)
Theorem success_means_all_notified env req w reportText :
  fst (process_report env req w)
  = Return {| status := 200; json := SuccessJson reportText |} ->
  exists analysis,
    analysis_step env req = Return analysis
    /\ reportText
       = report_text (firstName (body req)) (lastName (body req))
                     (propertyAddress (body req)) (repair_categories analysis)
                     (clock w)
    /\ dispatched w (snd (process_report env req w))
       = notifications env (body req) analysis reportText
    /\ snd (deliver env (outbox w)
                    (notifications env (body req) analysis reportText)) = None.
Proof.
  intros Hres.
  destruct (analysis_step env req) as [analysis|e] eqn:H.
  - rewrite (run_response env req w analysis H) in Hres.
    match type of Hres with
    | context [snd ?sends] => destruct (snd sends) as [e|] eqn:Hsends
    end; [discriminate Hres|].
    apply success_report_inj in Hres. subst reportText.
    exists analysis.
    split; [reflexivity|]. split; [reflexivity|].
    split; [|exact Hsends].
    rewrite (run_dispatched env req w analysis H).
    now apply deliver_all_accepted.
  - rewrite (process_report_analysis_fails env req w e H) in Hres.
    discriminate Hres.
Qed.

Lemma success_means_all_notified_witness :
  fst (process_report env_pests_reported jane_request quiet_world)
  = Return {| status := 200;
              json := SuccessJson
                        (report_text (lit "Jane") (lit "Doe") (lit "123 Main St")
                                     [roof_repair] inspection_day) |}
  /\ sent_by GreenMantisEmail
       (dispatched quiet_world
          (snd (process_report env_pests_reported jane_request quiet_world)))
     = 1%nat.
Proof.
  assert (H : fst (process_report env_pests_reported jane_request quiet_world)
              = Return {| status := 200;
                          json := SuccessJson
                                    (report_text (lit "Jane") (lit "Doe")
                                       (lit "123 Main St") [roof_repair]
                                       inspection_day) |})
    by (vm_compute; reflexivity).
  split; [exact H|].
  destruct (success_means_all_notified _ _ _ _ H)
    as (analysis & Ha & _ & Hsent & _).
  rewrite Hsent.
  assert (analysis = roof_estimate false true false)
    by (vm_compute in Ha; now injection Ha as <-).
  subst analysis. reflexivity.
Defined.

(** X6. A failed request may still leave a stored record: when the analysis
    succeeded and the INSERT lands, the row is in the table even though a
    notification send raised and the caller was answered with HTTP 500. *)
Theorem record_kept_when_notification_fails env req w analysis e :
  analysis_step env req = Return analysis ->
  insert_lands env (reports w)
    (stored_record env (body req) analysis (reports w) (clock w)) = true ->
  snd (deliver env (outbox w)
         (notifications env (body req) analysis
            (report_text (firstName (body req)) (lastName (body req))
               (propertyAddress (body req)) (repair_categories analysis)
               (clock w)))) = Some e ->
  fst (process_report env req w)
  = Return {| status := 500; json := ErrorJson (message e) |}
  /\ reports (snd (process_report env req w))
     = reports w ++ [stored_record env (body req) analysis (reports w) (clock w)].
Proof.
  intros H Hlands Hsends.
  rewrite (run_response env req w analysis H),
          (run_reports env req w analysis H), Hlands, Hsends.
  split; reflexivity.
Qed.

Lemma record_kept_when_notification_fails_witness :
  fst (process_report env_client_send_fails jane_request quiet_world)
  = Return {| status := 500; json := ErrorJson (message connection_timeout) |}
  /\ length (reports (snd (process_report env_client_send_fails jane_request
                                          quiet_world))) = 1%nat.
Proof.
  assert (H : analysis_step env_client_send_fails jane_request
              = Return (roof_estimate true false false))
    by (vm_compute; reflexivity).
  destruct (record_kept_when_notification_fails
              env_client_send_fails jane_request quiet_world
              (roof_estimate true false false) connection_timeout
              H eq_refl eq_refl) as [Hres Hrows].
  split; [exact Hres|]. rewrite Hrows. reflexivity.
Defined.

(** X7. The table is append-only: a run leaves every existing row in place and
    adds at most one row at the end; it never touches the clock. *)
Theorem reports_append_only env req w :
  exists added,
    reports (snd (process_report env req w)) = reports w ++ added
    /\ (length added <= 1)%nat
    /\ clock (snd (process_report env req w)) = clock w.
Proof.
  destruct (analysis_step env req) as [analysis|e] eqn:H.
  - rewrite (process_report_analysis_succeeds env req w analysis H).
    cbn [snd reports clock].
    destruct (insert_lands env (reports w) _).
    + eexists. split; [reflexivity|]. split; [cbn [length]; lia | reflexivity].
    + exists []. split; [now rewrite app_nil_r|].
      split; [cbn [length]; lia | reflexivity].
  - rewrite (process_report_analysis_fails env req w e H).
    cbn [snd reports clock].
    exists []. split; [now rewrite app_nil_r|].
    split; [cbn [length]; lia | reflexivity].
Qed.

Lemma next_id_above (table : list Row) :
  forall r, In r table -> integer_of (id r) < next_id table.
Proof.
  unfold next_id.
  assert (Hmax : forall (rows : list Row) (m : Z),
             m <= fold_left (fun m r => Z.max m (integer_of (id r))) rows m
             /\ forall r, In r rows ->
                  integer_of (id r)
                  <= fold_left (fun m r => Z.max m (integer_of (id r))) rows m).
  { induction rows as [|r0 rows IH]; intros m; cbn [fold_left].
    - split; [lia | intros r []].
    - destruct (IH (Z.max m (integer_of (id r0)))) as [Hm Hin].
      split; [lia|]. intros r [<-|Hr]; [lia | now apply Hin]. }
  intros r Hr. destruct (Hmax table 0) as [_ Hin]. specialize (Hin r Hr). lia.
Qed.

(** X8. Identifiers stay unique: if every row has an integer id and no two
    rows share one, the same holds of the table after a run. *)
Theorem ids_stay_distinct env req w :
  ids_distinct (reports w) ->
  ids_distinct (reports (snd (process_report env req w))).
Proof.
  intros [Hint Hnodup].
  destruct (analysis_step env req) as [analysis|e] eqn:H.
  - rewrite (run_reports env req w analysis H).
    destruct (insert_lands env (reports w) _); [|now split].
    split.
    + apply Forall_app. split; [exact Hint|].
      constructor; [|constructor]. eexists. reflexivity.
    + rewrite map_app. cbn [map stored_record id integer_of].
      apply NoDup_app;
        [exact Hnodup | constructor; [intros []|constructor] |].
      intros n Hn [<-|[]].
      apply in_map_iff in Hn as (r & Hr & Hin).
      pose proof (next_id_above (reports w) r Hin). lia.
  - rewrite (process_report_analysis_fails env req w e H). now split.
Qed.

Lemma ids_stay_distinct_witness :
  ids_distinct (reports busy_world)
  /\ ids_distinct (reports (snd (process_report env_all_up jane_request busy_world))).
Proof.
  assert (H : ids_distinct (reports busy_world)).
  { split.
    - constructor; [|constructor]. eexists. reflexivity.
    - constructor; [intros []|constructor]. }
  split; [exact H|].
  exact (ids_stay_distinct env_all_up jane_request busy_world H).
Defined.

(** X9. The report leaves the process in one place only: the first mail of a
    run goes to the submitted email address and carries the generated
    report as its single attachment, [RepairIntel_Report.txt]; every later
    mail of the run goes to one of the two configured internal addresses
    and has no attachment. *)
Theorem report_is_attached_to_client_mail_only env req w analysis :
  analysis_step env req = Return analysis ->
  exists first later,
    dispatched w (snd (process_report env req w)) = first :: later
    /\ sender first = ClientEmail
    /\ to (mail first) = body_email (body req)
    /\ attachments (mail first)
       = [ {| filename := lit "RepairIntel_Report.txt";
              content := report_text (firstName (body req)) (lastName (body req))
                           (propertyAddress (body req))
                           (repair_categories analysis) (clock w) |} ]
    /\ Forall (fun d => attachments (mail d) = []
                        /\ (to (mail d) = FROM_EMAIL env
                            \/ to (mail d) = ADMIN_EMAIL env)) later.
Proof.
  intros H.
  rewrite (run_dispatched env req w analysis H), deliver_notifications.
  set (reportText := report_text _ _ _ _ _).
  assert (Hadmin : attachments (mail (admin_dispatch env (body req) analysis)) = []
                   /\ (to (mail (admin_dispatch env (body req) analysis))
                       = FROM_EMAIL env
                       \/ to (mail (admin_dispatch env (body req) analysis))
                          = ADMIN_EMAIL env))
    by (split; [reflexivity | left; reflexivity]).
  assert (Hlead : attachments (mail (lead_dispatch env (body req) analysis)) = []
                  /\ (to (mail (lead_dispatch env (body req) analysis))
                      = FROM_EMAIL env
                      \/ to (mail (lead_dispatch env (body req) analysis))
                         = ADMIN_EMAIL env))
    by (split; [reflexivity | right; reflexivity]).
  destruct (sendMail_error env (outbox w) _).
  { exists (client_dispatch env (body req) reportText), [].
    cbn [fst]. repeat (split; [reflexivity|]). constructor. }
  destruct (sendMail_error env (outbox w ++ _) _).
  { exists (client_dispatch env (body req) reportText),
           [admin_dispatch env (body req) analysis].
    cbn [fst]. repeat (split; [reflexivity|]). now repeat constructor. }
  destruct (termites_mentioned analysis || pests_mentioned analysis); cbn [fst].
  - exists (client_dispatch env (body req) reportText),
           [admin_dispatch env (body req) analysis;
            lead_dispatch env (body req) analysis].
    repeat (split; [reflexivity|]). now repeat constructor.
  - exists (client_dispatch env (body req) reportText),
           [admin_dispatch env (body req) analysis].
    repeat (split; [reflexivity|]). now repeat constructor.
Qed.

Lemma report_is_attached_to_client_mail_only_witness :
  analysis_step env_pests_reported jane_request = Return (roof_estimate false true false)
  /\ exists first later,
       dispatched quiet_world
         (snd (process_report env_pests_reported jane_request quiet_world))
       = first :: later
       /\ to (mail first) = lit "jane@example.com"
       /\ length later = 2%nat.
Proof.
  assert (H : analysis_step env_pests_reported jane_request
              = Return (roof_estimate false true false))
    by (vm_compute; reflexivity).
  split; [exact H|].
  destruct (report_is_attached_to_client_mail_only
              env_pests_reported jane_request quiet_world
              (roof_estimate false true false) H)
    as (first & later & Hsent & _ & Hto & _ & _).
  exists first, later. split; [exact Hsent|]. split; [exact Hto|].
  rewrite (run_dispatched _ _ _ _ H), deliver_notifications in Hsent.
  cbn [fst] in Hsent.
  change (sendMail_error env_pests_reported) with smtp_up in Hsent.
  unfold smtp_up in Hsent. cbn [orb roof_estimate termites_mentioned
                               pests_mentioned fst] in Hsent.
  apply (f_equal (@length Dispatch)) in Hsent. cbn [length] in Hsent. lia.
Defined.

Lemma PROMPT_length : Z.of_nat (length PROMPT) = 482.
Proof. vm_compute. reflexivity. Qed.

Lemma substring_from_0_length (s : jsstring) (n : Z) :
  0 <= n -> Z.of_nat (length (substring s 0 n)) <= n.
Proof.
  intros Hn. rewrite substring_from_0 by exact Hn.
  rewrite length_firstn. lia.
Qed.

(** X10. A run calls the analyzer at most once, with a single user message of
    at most 40,482 code units (the 482 of the prompt and at most 40,000 of
    inspection text) and a 4,000 token answer limit; earlier entries of
    the request log are left as they were. *)
Theorem analyzer_called_at_most_once_and_bounded env req w :
  exists calls,
    submitted (snd (process_report env req w)) = submitted w ++ calls
    /\ (length calls <= 1)%nat
    /\ Forall (fun p =>
                 max_tokens p = 4000
                 /\ exists m,
                      messages p = [m]
                      /\ role m = lit "user"
                      /\ Z.of_nat (length (chat_content m)) <= 40482) calls.
Proof.
  exists (analyzer_calls env req). split; [apply run_submitted|].
  unfold analyzer_calls. destruct (extraction_step env req) as [pdfText|e].
  - split; [cbn [length]; lia|].
    constructor; [|constructor].
    split; [reflexivity|]. eexists. split; [reflexivity|].
    split; [reflexivity|].
    cbn [chat_content]. rewrite length_app, Nat2Z.inj_add, PROMPT_length.
    pose proof (substring_from_0_length pdfText MAX_INSPECTION_TEXT) as Hlen.
    unfold MAX_INSPECTION_TEXT in *. lia.
  - split; [cbn [length]; lia | constructor].
Qed.

(** X11. Truncation is idempotent: submitting a text that was already cut to
    the limit produces the same request as submitting the original. *)
Theorem inference_request_truncation_idempotent (pdfText : jsstring) :
  inference_request (substring pdfText 0 MAX_INSPECTION_TEXT)
  = inference_request pdfText.
Proof.
  unfold inference_request. do 3 f_equal.
  unfold MAX_INSPECTION_TEXT.
  rewrite !substring_from_0 by lia.
  rewrite firstn_firstn. now rewrite Nat.min_id.
Qed.

(** X16. The report depends on the clock through the calendar day only:
    two calls with the same arguments under clocks that show the same
    year, month and day return the same string, whatever the time of day. *)
Theorem report_depends_on_calendar_day_only
    (firstName lastName propertyAddress : jsstring) (analysis : Analysis)
    (w1 w2 : World) :
  getFullYear (clock w1) = getFullYear (clock w2) ->
  getMonth (clock w1) = getMonth (clock w2) ->
  getDate (clock w1) = getDate (clock w2) ->
  fst (generateReportText firstName lastName propertyAddress analysis w1)
  = fst (generateReportText firstName lastName propertyAddress analysis w2).
Proof.
  intros Hy Hm Hd. rewrite !generateReportText_run. cbn [fst].
  unfold report_text, report_header, copyright_line, toLocaleDateString.
  now rewrite Hy, Hm, Hd.
Qed.

Lemma report_depends_on_calendar_day_only_witness :
  getHours (clock quiet_world) <> getHours (clock evening_world)
  /\ fst (generateReportText (lit "Jane") (lit "Doe") (lit "123 Main St")
                             (roof_estimate false false false) quiet_world)
     = fst (generateReportText (lit "Jane") (lit "Doe") (lit "123 Main St")
                               (roof_estimate false false false) evening_world).
Proof.
  split; [discriminate|].
  apply (report_depends_on_calendar_day_only
           (lit "Jane") (lit "Doe") (lit "123 Main St")
           (roof_estimate false false false) quiet_world evening_world);
    reflexivity.
Defined.

(* ================================================================== *)
(** ** Properties of the checkout handler *)

(** X12. The checkout handler answers every request and changes nothing in the
    world: HTTP 200 with the id of the session when the payment provider
    opens one, HTTP 500 with the provider's message when it raises. *)
Theorem create_stripe_checkout_answers env req w :
  snd (create_stripe_checkout env req w) = w
  /\ ((exists session,
          sessions_create env (checkout_params env req) = Return session
          /\ fst (create_stripe_checkout env req w)
             = Return {| checkout_status := 200;
                         checkout_json := SessionJson (session_id session) |})
      \/ (exists e,
             sessions_create env (checkout_params env req) = Throw e
             /\ fst (create_stripe_checkout env req w)
                = Return {| checkout_status := 500;
                            checkout_json := CheckoutErrorJson (message e) |})).
Proof.
  unfold create_stripe_checkout, try_catch, bind, lift, ret.
  destruct (sessions_create env (checkout_params env req)) as [session|e].
  - split; [reflexivity|]. left. now exists session.
  - split; [reflexivity|]. right. now exists e.
Qed.

(** X13. With [REPORT_PRICE] unset, or set to the empty string, the session is
    requested for one item at 4999 minor currency units. *)
Theorem checkout_price_default env req :
  REPORT_PRICE env = None \/ REPORT_PRICE env = Some [] ->
  map (fun item => (unit_amount (price_data item), quantity item))
      (line_items (checkout_params env req))
  = [(number_of_Z 4999, 1)].
Proof.
  intros H. cbn [checkout_params line_items map price_data unit_amount quantity].
  unfold report_price.
  destruct H as [-> | ->]; vm_compute; reflexivity.
Qed.

Lemma checkout_price_default_witness :
  REPORT_PRICE (stripe_up (Some [])) = Some []
  /\ map (fun item => (unit_amount (price_data item), quantity item))
         (line_items (checkout_params (stripe_up (Some [])) browser_checkout))
     = [(number_of_Z 4999, 1)].
Proof.
  split; [reflexivity|].
  exact (checkout_price_default (stripe_up (Some [])) browser_checkout
                                (or_intror eq_refl)).
Defined.

(** X14. With [REPORT_PRICE] set to the decimal rendering of an integer
    of at most 20 digits, possibly followed by text that does not start
    with a digit, the unit amount of the session is the number nearest to
    that integer (the integer itself when it is a safe integer): what
    follows the digits is dropped, so a price written with a decimal point
    loses its fraction. *)
Theorem checkout_price_configured env req (n : Z) (tl : jsstring) :
  REPORT_PRICE env = Some (toString n ++ tl) ->
  ends_number tl ->
  Z.abs n < 10 ^ 20 ->
  map (fun item => (unit_amount (price_data item), quantity item))
      (line_items (checkout_params env req))
  = [(number_of_Z n, 1)].
Proof.
  intros Hprice Htl _.
  cbn [checkout_params line_items map price_data unit_amount quantity].
  unfold report_price. rewrite Hprice.
  assert (Hne : exists c s, toString n ++ tl = c :: s).
  { destruct (digits_of (Z.abs_N n)) as (_ & _ & Hdigits).
    unfold toString, nat_toString.
    destruct (n <? 0); [now eexists; eexists|].
    destruct (rev (map digit_char (digits_rev (digit_fuel (Z.abs_N n)) (Z.abs_N n))))
      as [|c s] eqn:Hrev; [|now exists c, (s ++ tl)].
    apply (f_equal (@rev code_unit)) in Hrev. rewrite rev_involutive in Hrev.
    cbn [rev] in Hrev. apply map_eq_nil in Hrev. contradiction. }
  destruct Hne as (c & s & Heq). rewrite Heq, <- Heq.
  now rewrite parseInt_toString_prefix.
Qed.

Lemma checkout_price_configured_witness :
  REPORT_PRICE (stripe_up (Some (lit "49.99"))) = Some (toString 49 ++ lit ".99")
  /\ map (fun item => (unit_amount (price_data item), quantity item))
         (line_items (checkout_params (stripe_up (Some (lit "49.99")))
                                      browser_checkout))
     = [(number_of_Z 49, 1)].
Proof.
  assert (Hprice : REPORT_PRICE (stripe_up (Some (lit "49.99")))
                   = Some (toString 49 ++ lit ".99"))
    by (vm_compute; reflexivity).
  assert (Htl : ends_number (lit ".99"))
    by (vm_compute; repeat split; discriminate).
  assert (Hsize : Z.abs 49 < 10 ^ 20) by (vm_compute; reflexivity).
  split; [exact Hprice|].
  exact (checkout_price_configured (stripe_up (Some (lit "49.99")))
                                   browser_checkout 49 (lit ".99")
                                   Hprice Htl Hsize).
Defined.

(** X15. A request without an [Origin] header is not rejected: the session is
    requested all the same, with redirect targets that start with the text
    [undefined]. *)
Theorem checkout_without_origin env req :
  origin req = None ->
  success_url (checkout_params env req)
  = lit "undefined/success?session_id={CHECKOUT_SESSION_ID}"
  /\ cancel_url (checkout_params env req) = lit "undefined/cancel".
Proof.
  intros H. cbn [checkout_params success_url cancel_url]. rewrite H.
  cbn [spliced]. split; vm_compute; reflexivity.
Qed.

Lemma checkout_without_origin_witness :
  origin (mkCheckoutRequest None) = None
  /\ cancel_url (checkout_params (stripe_up None) (mkCheckoutRequest None))
     = lit "undefined/cancel".
Proof.
  split; [reflexivity|].
  exact (proj2 (checkout_without_origin (stripe_up None) (mkCheckoutRequest None)
                                        eq_refl)).
Defined.
